(** * GridBanner authorized_keys updater: a shallow embedding

    Source: [server-scripts/update-authorized-keys.py].

    The script fetches an authorized_keys payload over HTTP, writes it
    into the [.ssh] directory of each configured account (keeping a
    one-generation backup) and registers itself in root's crontab.

    Python text is modelled as [string]; each character stands for one
    code point below 256.  The host the script runs on (user database,
    HTTP peer, crontab tooling, access decisions) is a record of
    observations; the state the script mutates (file nodes, the cron
    table, the log) is threaded explicitly. *)

From Stdlib Require Import ZArith Ascii String List Lia Bool.
From stdpp Require Import base option list gmap strings pretty.

Local Open Scope Z_scope.

(** ** Python string primitives *)

Module Py.

Definition nl : ascii := "010"%char.
Definition slash : ascii := "/"%char.
Definition comma : ascii := ","%char.

(** [str.isspace] on one code point below 256: TAB..CR, FS..US,
    SPACE, NEL (0x85) and NBSP (0xA0). *)
Definition isspace (c : ascii) : bool :=
  let n := N_of_ascii c in
  ((9 <=? n) && (n <=? 13))%N || ((28 <=? n) && (n <=? 32))%N
  || (n =? 133)%N || (n =? 160)%N.

Definition eqc (a b : ascii) : bool := Ascii.eqb a b.

(** [s.lstrip()] / [s.lstrip(chars)]: drop the leading characters
    that satisfy [p]. *)
Fixpoint lstrip_by (p : ascii → bool) (s : string) : string :=
  match s with
  | EmptyString => EmptyString
  | String c r => if p c then lstrip_by p r else s
  end.

(** [s.rstrip()] / [s.rstrip(chars)]: drop the trailing characters
    that satisfy [p]. *)
Fixpoint rstrip_by (p : ascii → bool) (s : string) : string :=
  match s with
  | EmptyString => EmptyString
  | String c r =>
      match rstrip_by p r with
      | EmptyString => if p c then EmptyString else String c EmptyString
      | r' => String c r'
      end
  end.

(** [s.strip()] *)
Definition strip (s : string) : string :=
  rstrip_by isspace (lstrip_by isspace s).

(** [s.split(sep)] for a one-character separator; never empty:
    ["".split(sep) == [""]]. *)
Fixpoint split (sep : ascii) (s : string) : list string :=
  match s with
  | EmptyString => [EmptyString]
  | String c r =>
      if eqc c sep then EmptyString :: split sep r
      else match split sep r with
           | l :: ls => String c l :: ls
           | [] => [String c EmptyString]
           end
  end.

(** [sep.join(items)] *)
Fixpoint join (sep : string) (items : list string) : string :=
  match items with
  | [] => EmptyString
  | [x] => x
  | x :: rest => x +:+ sep +:+ join sep rest
  end.

(** [s.startswith(p)] *)
Fixpoint startswith (p s : string) : bool :=
  match p, s with
  | EmptyString, _ => true
  | String a p', String b s' => eqc a b && startswith p' s'
  | String _ _, EmptyString => false
  end.

(** [p in s] on strings. *)
Fixpoint contains (p s : string) : bool :=
  startswith p s ||
  match s with
  | EmptyString => false
  | String _ r => contains p r
  end.

(** [c in s] for one character. *)
Fixpoint has_char (c : ascii) (s : string) : bool :=
  match s with
  | EmptyString => false
  | String a r => eqc a c || has_char c r
  end.

(** [s.endswith(c)] for one character. *)
Fixpoint endswith_char (c : ascii) (s : string) : bool :=
  match s with
  | EmptyString => false
  | String a EmptyString => eqc a c
  | String _ r => endswith_char c r
  end.

(** [bool(s)]: a string is truthy when it is not empty. *)
Definition truthy (s : string) : bool :=
  match s with EmptyString => false | _ => true end.

(** [len(s)] *)
Definition len (s : string) : nat := String.length s.

(** [str(n)] for a natural number and for an integer. *)
Definition str_nat (n : nat) : string := pretty n.
Definition str_Z (n : Z) : string := pretty n.

(** [os.path.join(a, b)] of posixpath for two components. *)
Definition path_join (a b : string) : string :=
  if startswith "/" b then b
  else if negb (truthy a) || endswith_char slash a then a +:+ b
  else a +:+ "/" +:+ b.

(** [os.path.basename(p)]: what follows the last slash. *)
Definition basename (p : string) : string :=
  List.last (split slash p) EmptyString.

(** The universal-newlines reading of text mode
    ([subprocess] with [text=True]): every CR LF pair and every lone
    CR becomes one LF. *)
Definition cr : ascii := "013"%char.

Fixpoint translate_newlines (s : string) : string :=
  match s with
  | EmptyString => EmptyString
  | String c r =>
      if eqc c cr then
        String nl (match r with
                   | String c' r' => if eqc c' nl then translate_newlines r'
                                     else translate_newlines r
                   | EmptyString => EmptyString
                   end)
      else String c (translate_newlines r)
  end.

(** [p[:i], p[i:]] for [i = p.rfind('/') + 1]. *)
Fixpoint rsplit_slash (p : string) : string * string :=
  match p with
  | EmptyString => (EmptyString, EmptyString)
  | String c r =>
      let '(hd, tl) := rsplit_slash r in
      if truthy hd then (String c hd, tl)
      else if eqc c slash then (String c EmptyString, tl)
      else (EmptyString, String c tl)
  end.

(** A non-empty string of slashes only: the root directory. *)
Definition is_root (p : string) : bool :=
  truthy p && negb (truthy (lstrip_by (eqc slash) p)).

(** [os.path.split(p)] of posixpath. *)
Definition path_split (p : string) : string * string :=
  let '(hd, tl) := rsplit_slash p in
  (if truthy hd && negb (is_root hd) then rstrip_by (eqc slash) hd else hd, tl).

End Py.

(** ** The host and the mutable state *)

Inductive level := INFO | ERROR.

(** One record of the user database ([pwd.struct_passwd]). *)
Record pwent := { pw_dir : string; pw_uid : Z; pw_gid : Z }.

(** A node of the file store: a regular file or a directory, with
    its permission bits and owner. *)
Inductive node :=
| File (content : string) (mode uid gid : Z)
| Dir (mode uid gid : Z).

(** What [urllib.request.urlopen] does with the request.  A response
    carries its status and the result of [response.read().decode('utf-8')]:
    the text, or the message of the decoding error.  [HTTPError] is
    raised by urllib for a status outside 2xx; [URLError] is a
    transport failure; [OtherError] any other exception (a read
    timeout, for instance). *)
Inductive http_outcome :=
| Response (status : Z) (body : string + string)
| HTTPError (code : Z) (reason : string)
| URLError (reason : string)
| OtherError (msg : string).

(** What the script observes of its host and cannot change.
    [pwd_db = None] stands for [import pwd] raising [ImportError].
    [writable p] is the kernel's decision on whether this process may
    create or change the node at [p].  [crontab_accepts t] tells
    whether [crontab -] exits with status 0 on input [t]. *)
Record host := {
  euid : Z;
  egid : Z;
  umask : Z;
  pwd_db : option (gmap string pwent);
  writable : string → bool;
  urlopen : string → string → http_outcome;
  python_path : string;
  script_path : string;
  crontab_present : bool;
  crontab_accepts : string → bool;
}.

(** What the script changes: the file nodes at the paths it names,
    root's cron table and the log records it emits (both handlers
    receive the same records).  [crontab = Some t] when the table
    decodes, in the locale of the process, to the text [t];
    [crontab = None] when there is no such text: there is no table, or
    there is one whose bytes do not decode, and then
    [crontab_decode_error] holds the message of the decoding error
    (the field is looked at only when [crontab] is [None]). *)
Record state := {
  fs : gmap string node;
  crontab : option string;
  crontab_decode_error : option string;
  log : list (level * string);
}.

Definition set_fs (f : gmap string node) (s : state) : state :=
  {| fs := f; crontab := crontab s;
     crontab_decode_error := crontab_decode_error s; log := log s |}.

Definition set_crontab (t : option string) (s : state) : state :=
  {| fs := fs s; crontab := t; crontab_decode_error := None; log := log s |}.

(** [logger.info(msg)] / [logger.error(msg)] *)
Definition emit (lvl : level) (msg : string) (s : state) : state :=
  {| fs := fs s; crontab := crontab s;
     crontab_decode_error := crontab_decode_error s;
     log := log s ++ [(lvl, msg)] |}.

(** The exceptions the file operations raise, with their path.
    [RecursionError] is what the bounded recursion of [makedirs] would
    raise with its bound used up, which does not happen. *)
Inductive exn :=
| PermissionError (path : string)
| FileExistsError (path : string)
| IsADirectoryError (path : string)
| FileNotFoundError (path : string)
| NotADirectoryError (path : string)
| RecursionError.

(** [str(e)] *)
Definition str_exn (e : exn) : string :=
  match e with
  | PermissionError p => "[Errno 13] Permission denied: '" +:+ p +:+ "'"
  | FileExistsError p => "[Errno 17] File exists: '" +:+ p +:+ "'"
  | IsADirectoryError p => "[Errno 21] Is a directory: '" +:+ p +:+ "'"
  | FileNotFoundError p => "[Errno 2] No such file or directory: '" +:+ p +:+ "'"
  | NotADirectoryError p => "[Errno 20] Not a directory: '" +:+ p +:+ "'"
  | RecursionError => "maximum recursion depth exceeded"
  end.

(** How a function that may call [sys.exit] ends. *)
Inductive outcome (A : Type) :=
| Returned (a : A)
| SysExit (code : Z).
Arguments Returned {A} a.
Arguments SysExit {A} code.

(** Statements that may raise: the state reached and either the
    exception or the value. *)
Definition M (A : Type) : Type := state → state * (exn + A).

Definition ret {A} (a : A) : M A := λ s, (s, inr a).
Definition raise {A} (e : exn) : M A := λ s, (s, inl e).
Definition bind {A B} (m : M A) (k : A → M B) : M B :=
  λ s, match m s with
       | (s1, inl e) => (s1, inl e)
       | (s1, inr a) => k a s1
       end.
Definition lift (f : state → state) : M unit := λ s, (f s, inr tt).

Notation "m ';;' k" := (bind m (λ _, k))
  (at level 100, k at level 200, right associativity).

Definition mode_0700 : Z := 0x1C0.
Definition mode_0600 : Z := 0x180.
Definition mode_0666 : Z := 0x1B6.

Definition is_dir (n : option node) : bool :=
  match n with Some (Dir _ _ _) => true | _ => false end.

(** Reading a regular file back. *)
Definition read_file (f : gmap string node) (p : string) : option string :=
  match f !! p with Some (File c _ _ _) => Some c | _ => None end.

Definition mode_at (f : gmap string node) (p : string) : option Z :=
  match f !! p with
  | Some (File _ m _ _) => Some m
  | Some (Dir m _ _) => Some m
  | None => None
  end.

Definition with_mode (mode : Z) (n : node) : node :=
  match n with
  | File c _ u g => File c mode u g
  | Dir _ u g => Dir mode u g
  end.

(** [os.chown]: an id of -1 leaves that id as it is. *)
Definition chown_id (new old : Z) : Z := if new =? -1 then old else new.

Definition with_owner (uid gid : Z) (n : node) : node :=
  match n with
  | File c m u g => File c m (chown_id uid u) (chown_id gid g)
  | Dir m u g => Dir m (chown_id uid u) (chown_id gid g)
  end.

(** How reading the cron table ends. *)
Inductive crontab_read :=
| ReadText (out : string)
| ReadNone
| ReadError (msg : string).

Section Script.

Variable h : host.

(** *** File operations of [os] and [shutil] *)

(** [os.path.exists(p)] *)
Definition path_exists (p : string) (s : state) : bool :=
  bool_decide (is_Some (fs s !! p)).

Definition guard_writable (p : string) : M unit :=
  if writable h p then ret tt else raise (PermissionError p).

(** Whether [p] names an existing directory for the kernel: the
    root always does, any other path when the store has a directory
    there. *)
Definition dir_exists (p : string) (s : state) : bool :=
  Py.is_root p || is_dir (fs s !! p).

(** [os.mkdir(p, mode)]: fails when something exists at [p], when
    the parent directory is missing or is no directory, or when the
    process may not create the node; the new directory gets
    [mode & ~umask].  A path without a directory part lies in the
    working directory, which exists. *)
Definition mkdir (p : string) (mode : Z) : M unit :=
  λ s, if Py.is_root p || path_exists p s then raise (FileExistsError p) s
       else
         let parent := fst (Py.path_split p) in
         if Py.truthy parent && negb (dir_exists parent s) then
           if path_exists parent s then raise (NotADirectoryError p) s
           else raise (FileNotFoundError p) s
         else
           (guard_writable p ;;
            lift (λ s, set_fs (<[p := Dir (Z.land mode (Z.lnot (umask h)))
                                        (euid h) (egid h)]> (fs s)) s)) s.

(** The last step of [os.makedirs(name, mode, exist_ok=True)]:
    [mkdir], an [OSError] of which is passed over when the name is a
    directory. *)
Definition mkdir_leaf (name : string) (mode : Z) : M unit :=
  λ s, match mkdir name mode s with
       | (s', inl RecursionError) => (s', inl RecursionError)
       | (s', inl e) =>
           if dir_exists name s' then (s', inr tt) else (s', inl e)
       | (s', inr v) => (s', inr v)
       end.

(** [os.makedirs(name, mode, exist_ok=True)], as in [os.py]: split
    the name, create the missing ancestors first (with the default mode
    0o777, a [FileExistsError] of that call is passed over), then
    [mkdir] the leaf.  Each recursive call is on a strictly shorter
    name, so [fuel] of the length of the name never runs out. *)
Fixpoint makedirs_rec (fuel : nat) (name : string) (mode : Z) : M unit :=
  match fuel with
  | O => raise RecursionError
  | S fuel =>
      let '(hd, tl) := Py.path_split name in
      let '(hd, tl) := if Py.truthy tl then (hd, tl) else Py.path_split hd in
      λ s, if Py.truthy hd && Py.truthy tl
              && negb (Py.is_root hd || path_exists hd s) then
             match makedirs_rec fuel hd 0x1FF s with
             | (s', inl (FileExistsError _)) | (s', inr _) =>
                 if String.eqb tl "." then (s', inr tt)
                 else mkdir_leaf name mode s'
             | (s', inl e) => (s', inl e)
             end
           else mkdir_leaf name mode s
  end.

Definition makedirs (p : string) (mode : Z) : M unit :=
  makedirs_rec (S (String.length p)) p mode.

(** [open(p, 'w')] followed by [f.write(text)]: an existing file is
    truncated and keeps its mode and owner, a missing one is created
    with [0o666 & ~umask]. *)
Definition write_text (p text : string) : M unit :=
  λ s, match fs s !! p with
       | Some (Dir _ _ _) => raise (IsADirectoryError p) s
       | Some (File _ m u g) =>
           (guard_writable p ;;
            lift (λ s, set_fs (<[p := File text m u g]> (fs s)) s)) s
       | None =>
           (guard_writable p ;;
            lift (λ s, set_fs (<[p := File text (Z.land mode_0666 (Z.lnot (umask h)))
                                        (euid h) (egid h)]> (fs s)) s)) s
       end.

(** [shutil.copy2(src, dst)]: when [dst] is a directory the copy
    goes inside it under the base name of [src]; content and
    permission bits are copied, the owner is not. *)
Definition copy2 (src dst : string) : M unit :=
  λ s, match fs s !! src with
       | None => raise (FileNotFoundError src) s
       | Some (Dir _ _ _) => raise (IsADirectoryError src) s
       | Some (File c m _ _) =>
           let dst' := if is_dir (fs s !! dst)
                       then Py.path_join dst (Py.basename src) else dst in
           match fs s !! dst' with
           | Some (Dir _ _ _) => raise (IsADirectoryError dst') s
           | Some (File _ _ u g) =>
               (guard_writable dst' ;;
                lift (λ s, set_fs (<[dst' := File c m u g]> (fs s)) s)) s
           | None =>
               (guard_writable dst' ;;
                lift (λ s, set_fs (<[dst' := File c m (euid h) (egid h)]> (fs s)) s)) s
           end
       end.

(** [os.chmod(p, mode)] *)
Definition chmod (p : string) (mode : Z) : M unit :=
  λ s, match fs s !! p with
       | None => raise (FileNotFoundError p) s
       | Some n =>
           (guard_writable p ;;
            lift (λ s, set_fs (<[p := with_mode mode n]> (fs s)) s)) s
       end.

(** [os.chown(p, uid, gid)] *)
Definition chown (p : string) (uid gid : Z) : M unit :=
  λ s, match fs s !! p with
       | None => raise (FileNotFoundError p) s
       | Some n =>
           (guard_writable p ;;
            lift (λ s, set_fs (<[p := with_owner uid gid n]> (fs s)) s)) s
       end.

(** *** Module constants *)

Definition CRON_COMMENT : string := "# GridBanner authorized_keys updater".
Definition SCRIPT_NAME : string := "update-authorized-keys.py".

(** [get_script_path()] *)
Definition get_script_path : string := script_path h.

(** *** [fetch_authorized_keys] *)

Definition fetch_url (server_url admin_key group_name : string) : string :=
  Py.rstrip_by (Py.eqc Py.slash) server_url
    +:+ "/api/authorized-keys/group/" +:+ group_name +:+ "?key=" +:+ admin_key.

Definition fetch_authorized_keys (server_url admin_key group_name : string)
    (s : state) : state * option string :=
  let url := fetch_url server_url admin_key group_name in
  let s := emit INFO ("Fetching authorized_keys from " +:+ url) s in
  match urlopen h url admin_key with
  | Response status body =>
      if status =? 200 then
        match body with
        | inl content =>
            (emit INFO ("Successfully fetched "
                        +:+ Py.str_nat (Py.len content) +:+ " bytes") s,
             Some content)
        | inr msg => (emit ERROR ("Unexpected error: " +:+ msg) s, None)
        end
      else
        (emit ERROR ("Server returned status " +:+ Py.str_Z status) s, None)
  | HTTPError code reason =>
      let s :=
        if code =? 404 then
          emit ERROR ("Group '" +:+ group_name +:+ "' not found on server") s
        else if code =? 401 then
          emit ERROR "Authentication failed - check admin key" s
        else
          emit ERROR ("HTTP error " +:+ Py.str_Z code +:+ ": " +:+ reason) s in
      (s, None)
  | URLError reason => (emit ERROR ("Network error: " +:+ reason) s, None)
  | OtherError msg => (emit ERROR ("Unexpected error: " +:+ msg) s, None)
  end.

(** *** [update_authorized_keys] *)

(** Lines 113-129, "Determine home directory": the home directory,
    or [None] when the function has logged an error and returned
    [False]. *)
Definition resolve_home (user : string) (s : state) : state * option string :=
  if String.eqb user "root" then (s, Some "/root")
  else
    match pwd_db h with
    | Some db =>
        match db !! user with
        | Some ent => (s, Some (pw_dir ent))
        | None => (emit ERROR ("User '" +:+ user +:+ "' not found") s, None)
        end
    | None =>
        let home_dir := "/home/" +:+ user in
        if path_exists home_dir s then (s, Some home_dir)
        else (emit ERROR ("Home directory for user '" +:+ user
                          +:+ "' not found") s, None)
    end.

Definition ssh_dir_of (home_dir : string) : string :=
  Py.path_join home_dir ".ssh".
Definition keys_file_of (home_dir : string) : string :=
  Py.path_join (ssh_dir_of home_dir) "authorized_keys".
Definition backup_file_of (home_dir : string) : string :=
  keys_file_of home_dir +:+ ".backup".

(** Lines 153-162: ownership, only when running as root; a missing
    user database or an unknown user skips the change. *)
Definition set_ownership (user keys_file ssh_dir : string) : M unit :=
  if euid h =? 0 then
    match pwd_db h with
    | Some db =>
        match db !! user with
        | Some ent =>
            chown keys_file (pw_uid ent) (pw_gid ent) ;;
            chown ssh_dir (pw_uid ent) (pw_gid ent)
        | None => ret tt
        end
    | None => ret tt
    end
  else ret tt.

(** Lines 139-143, "Create backup if file exists". *)
Definition backup_existing (keys_file backup_file : string) : M unit :=
  λ s, if path_exists keys_file s
       then (copy2 keys_file backup_file ;;
             lift (emit INFO ("Created backup: " +:+ backup_file))) s
       else ret tt s.

(** Lines 131-165: everything after the home directory is known. *)
Definition install_keys (user home_dir keys_content : string) : M unit :=
  let ssh_dir := ssh_dir_of home_dir in
  makedirs ssh_dir mode_0700 ;;
  let keys_file := keys_file_of home_dir in
  let backup_file := backup_file_of home_dir in
  backup_existing keys_file backup_file ;;
  write_text keys_file keys_content ;;
  chmod keys_file mode_0600 ;;
  chmod ssh_dir mode_0700 ;;
  set_ownership user keys_file ssh_dir ;;
  lift (emit INFO ("Updated authorized_keys for user '" +:+ user
                   +:+ "' (" +:+ keys_file +:+ ")")).

Definition update_authorized_keys (user keys_content : string)
    (s : state) : state * bool :=
  match resolve_home user s with
  | (s, None) => (s, false)
  | (s, Some home_dir) =>
      match install_keys user home_dir keys_content s with
      | (s, inr _) => (s, true)
      | (s, inl (PermissionError _)) =>
          (emit ERROR ("Permission denied updating keys for user '" +:+ user
                       +:+ "' (run as root)") s, false)
      | (s, inl e) =>
          (emit ERROR ("Error updating keys for user '" +:+ user +:+ "': "
                       +:+ str_exn e) s, false)
      end
  end.

(** *** The cron table *)

(** The comprehension of lines 206 and 251. *)
Definition keep_line (line : string) : bool :=
  negb (Py.contains CRON_COMMENT line) && negb (Py.contains SCRIPT_NAME line).

(** [split], filter, [join], [strip]: lines 205-209 and 250-253. *)
Definition filtered_crontab (current_crontab : string) : string :=
  Py.strip (Py.join (String Py.nl "")
              (List.filter keep_line (Py.split Py.nl current_crontab))).

Definition users_arg (users : list string) : string :=
  match users with
  | [] => ""
  | _ => " --users " +:+ Py.join "," users
  end.

Definition cron_cmd (server_url admin_key group_name : string)
    (users : list string) : string :=
  python_path h +:+ " " +:+ get_script_path +:+ " --server " +:+ server_url
    +:+ " --key " +:+ admin_key +:+ " --group " +:+ group_name
    +:+ users_arg users.

Definition cron_entry (server_url admin_key group_name : string)
    (users : list string) : string :=
  "*/1 * * * * " +:+ cron_cmd server_url admin_key group_name users
    +:+ " >> /var/log/gridbanner-keys-update.log 2>&1".

(** Lines 209-213: the table handed to [crontab -]. *)
Definition new_crontab_of (entry current_crontab : string) : string :=
  let new_crontab := filtered_crontab current_crontab in
  let new_crontab :=
    if Py.truthy new_crontab then new_crontab +:+ String Py.nl ""
    else new_crontab in
  let new_crontab := new_crontab +:+ CRON_COMMENT +:+ String Py.nl "" in
  new_crontab +:+ entry +:+ String Py.nl "".

(** [subprocess.run(['crontab', '-l'], capture_output=True, text=True)]:
    the output read in text mode (decoded, CR LF and CR turned into LF)
    when there is a table, exit status 1 and no output when there is
    none, and a [UnicodeDecodeError] when the table does not decode. *)
Definition crontab_l (s : state) : crontab_read :=
  match crontab s with
  | Some t => ReadText (Py.translate_newlines t)
  | None =>
      match crontab_decode_error s with
      | Some msg => ReadError msg
      | None => ReadNone
      end
  end.

(** [crontab -] with [input]: installs it when the tool accepts it. *)
Definition crontab_write (input : string) (s : state) : state * bool :=
  if crontab_accepts h input then (set_crontab (Some input) s, true)
  else (s, false).

(** [crontab -r] *)
Definition crontab_r (s : state) : state := set_crontab None s.

Definition install_cron (server_url admin_key group_name : string)
    (users : list string) (s : state) : state * outcome unit :=
  if negb (euid h =? 0) then
    (emit ERROR "Must run as root to install cron job" s, SysExit 1)
  else
    let entry := cron_entry server_url admin_key group_name users in
    if negb (crontab_present h) then
      (emit ERROR "crontab command not found. Is cron installed?" s, SysExit 1)
    else
      match crontab_l s with
      | ReadError msg =>
          (emit ERROR ("Error installing cron job: " +:+ msg) s, SysExit 1)
      | result =>
          let current_crontab :=
            match result with ReadText out => out | _ => "" end in
          let new_crontab := new_crontab_of entry current_crontab in
          match crontab_write new_crontab s with
          | (s, true) =>
              (emit INFO ("Cron entry: " +:+ entry)
                 (emit INFO "Cron job installed successfully" s), Returned tt)
          | (s, false) =>
              (emit ERROR "Failed to install cron job" s, SysExit 1)
          end
      end.

Definition uninstall_cron (s : state) : state * outcome unit :=
  if negb (euid h =? 0) then
    (emit ERROR "Must run as root to uninstall cron job" s, SysExit 1)
  else if negb (crontab_present h) then
    (emit ERROR ("Error uninstalling cron job: "
                 +:+ str_exn (FileNotFoundError "crontab")) s, SysExit 1)
  else
    match crontab_l s with
    | ReadError msg =>
        (emit ERROR ("Error uninstalling cron job: " +:+ msg) s, SysExit 1)
    | ReadNone => (emit INFO "No crontab found" s, Returned tt)
    | ReadText current_crontab =>
        let new_crontab := filtered_crontab current_crontab in
        if Py.truthy new_crontab then
          let '(s, _) := crontab_write (new_crontab +:+ String Py.nl "") s in
          (emit INFO "Cron job uninstalled successfully" s, Returned tt)
        else
          (emit INFO "Cron job uninstalled (crontab is now empty)"
             (crontab_r s), Returned tt)
    end.

(** *** [main] *)

Record args := {
  arg_server : string;
  arg_key : string;
  arg_group : string;
  arg_users : option string;
  arg_install : bool;
  arg_uninstall : bool;
}.

(** Lines 298-301. *)
Definition users_of (a : args) : list string :=
  match arg_users a with
  | Some us =>
      if Py.truthy us then
        List.map Py.strip
          (List.filter (λ u, Py.truthy (Py.strip u)) (Py.split Py.comma us))
      else ["root"]
  | None => ["root"]
  end.

(** Lines 310-313: the loop over the accounts. *)
Fixpoint update_users (users : list string) (keys_content : string)
    (success_count : nat) (s : state) : state * nat :=
  match users with
  | [] => (s, success_count)
  | user :: rest =>
      let '(s, ok) := update_authorized_keys user keys_content s in
      update_users rest keys_content
        (if ok then S success_count else success_count) s
  end.

Definition main (a : args) (s : state) : state * outcome unit :=
  if arg_uninstall a then uninstall_cron s
  else
    let users := users_of a in
    match fetch_authorized_keys (arg_server a) (arg_key a) (arg_group a) s with
    | (s, None) =>
        (emit ERROR "Failed to fetch authorized_keys from server" s, SysExit 1)
    | (s, Some keys_content) =>
        let '(s, success_count) := update_users users keys_content 0 s in
        if (success_count =? 0)%nat then
          (emit ERROR "Failed to update keys for any user" s, SysExit 1)
        else
          let s := emit INFO ("Successfully updated keys for "
                              +:+ Py.str_nat success_count +:+ "/"
                              +:+ Py.str_nat (length users) +:+ " user(s)") s in
          if arg_install a then
            install_cron (arg_server a) (arg_key a) (arg_group a) users s
          else (s, Returned tt)
    end.

End Script.

(** ** Observations used in the statements *)

(** [grows_within P s s']: from [s] to [s'] nothing changed but the
    file store, and there every path either holds what it held or was
    free, satisfies [P] and now holds a directory. *)
Definition grows_within (P : string → Prop) (s s' : state) : Prop :=
  crontab s' = crontab s
  ∧ crontab_decode_error s' = crontab_decode_error s
  ∧ log s' = log s
  ∧ ∀ q, fs s' !! q = fs s !! q
         ∨ (fs s !! q = None ∧ is_dir (fs s' !! q) = true ∧ P q).

(** Where [copy2] puts the copy. *)
Definition copy2_target (src dst : string) (s : state) : string :=
  if is_dir (fs s !! dst) then Py.path_join dst (Py.basename src) else dst.

(** Changing the owner leaves content, mode and kind as they are. *)
Definition same_data (f f' : gmap string node) (q : string) : Prop :=
  read_file f' q = read_file f q ∧ mode_at f' q = mode_at f q
  ∧ is_dir (f' !! q) = is_dir (f !! q).

(** The lines of a table that belong to this tool: those the filter
    of [install_cron] and [uninstall_cron] removes. *)
Definition tool_lines (table : string) : list string :=
  List.filter (λ line, negb (keep_line line)) (Py.split Py.nl table).

(** The schedule entries of this tool: the lines that carry the
    program name. *)
Definition tool_entries (table : string) : list string :=
  List.filter (Py.contains SCRIPT_NAME) (Py.split Py.nl table).

(** The lines of [table] that are exactly [entry]. *)
Definition occurrences (entry table : string) : list string :=
  List.filter (String.eqb entry) (Py.split Py.nl table).

Definition table_of (s : state) : string :=
  match crontab s with Some t => t | None => "" end.

(** The home directory that [update_authorized_keys] settles on for
    [user] in state [s], when it finds one. *)
Definition home_of (h : host) (user : string) (s : state) : option string :=
  snd (resolve_home h user s).

(** ** Sample hosts and states *)

Definition demo_db : gmap string pwent :=
  {[ "deploy" := {| pw_dir := "/home/deploy"; pw_uid := 1000; pw_gid := 1000 |} ]}.

Definition demo_payload : string :=
  "ssh-ed25519 AAAA... user@host" +:+ String Py.nl "".

(** A host run by root, with the crontab tooling, whose HTTP peer
    answers every request with [answer]. *)
Definition demo_host (answer : http_outcome)
    (db : option (gmap string pwent)) : host :=
  {| euid := 0; egid := 0; umask := 0x12;
     pwd_db := db;
     writable := λ _, true;
     urlopen := λ _ _, answer;
     python_path := "/usr/bin/python3";
     script_path := "/opt/gridbanner/update-authorized-keys.py";
     crontab_present := true;
     crontab_accepts := λ _, true |}.

Definition ok_host : host :=
  demo_host (Response 200 (inl demo_payload)) (Some demo_db).

(** Root already has a world-readable key file and an older backup;
    the cron table holds one foreign job. *)
Definition demo_state : state :=
  {| fs := {[ "/root/.ssh" := Dir 0x1ED 0 0;
              "/root/.ssh/authorized_keys" := File "old-key" 0x1A4 0 0;
              "/root/.ssh/authorized_keys.backup" := File "older-key" 0x180 0 0 ]};
     crontab := Some ("0 5 * * * /usr/local/bin/backup" +:+ String Py.nl "");
     crontab_decode_error := None; log := [] |}.

(** A first run: no [.ssh] directory yet, a stale backup path is
    absent, and root has no cron table. *)
Definition fresh_state : state :=
  {| fs := ∅; crontab := None; crontab_decode_error := None; log := [] |}.


(** The script was copied to another name before it was run. *)
Definition renamed_host : host :=
  {| euid := 0; egid := 0; umask := 0x12;
     pwd_db := Some demo_db;
     writable := λ _, true;
     urlopen := λ _ _, Response 200 (inl demo_payload);
     python_path := "/usr/bin/python3";
     script_path := "/usr/local/bin/gridbanner-keys";
     crontab_present := true;
     crontab_accepts := λ _, true |}.

(** A directory sits where the backup file would go. *)
Definition backup_dir_state : state :=
  {| fs := {[ "/root/.ssh" := Dir 0x1C0 0 0;
              "/root/.ssh/authorized_keys" := File "old-key" 0x180 0 0;
              "/root/.ssh/authorized_keys.backup" := Dir 0x1C0 0 0 ]};
     crontab := None; crontab_decode_error := None; log := [] |}.

Definition not_found_host : host :=
  demo_host (HTTPError 404 "Not Found") (Some demo_db).
Definition unauthorized_host : host :=
  demo_host (HTTPError 401 "Unauthorized") (Some demo_db).
Definition broken_host : host :=
  demo_host (HTTPError 500 "Internal Server Error") (Some demo_db).
Definition unreachable_host : host :=
  demo_host (URLError "[Errno 111] Connection refused") (Some demo_db).

Definition ghosts_args : args :=
  {| arg_server := "http://server:3000"; arg_key := "adminkey";
     arg_group := "Ghosts"; arg_users := Some "root,deploy";
     arg_install := true; arg_uninstall := false |}.

Definition no_pwd_host : host :=
  demo_host (Response 200 (inl demo_payload)) None.

Definition home_deploy_state : state :=
  {| fs := {[ "/home/deploy" := Dir 0x1ED 1000 1000 ]};
     crontab := None; crontab_decode_error := None; log := [] |}.

Definition mixed_args : args :=
  {| arg_server := "http://server:3000"; arg_key := "adminkey";
     arg_group := "Developers"; arg_users := Some "deploy, ghost";
     arg_install := false; arg_uninstall := false |}.

(** The first job of the table is indented. *)
Definition indented_table_state : state :=
  {| fs := ∅;
     crontab := Some ("  0 5 * * * /usr/local/bin/backup" +:+ String Py.nl "");
     crontab_decode_error := None; log := [] |}.

(** A table that already has the stripped shape, and no table. *)
Definition plain_table_state : state :=
  {| fs := ∅;
     crontab := Some ("MAILTO=root" +:+ String Py.nl
                        "0 5 * * * /usr/local/bin/backup" +:+ String Py.nl "");
     crontab_decode_error := None; log := [] |}.

(** ** Observations used in the further properties *)

(** [touches P s s']: from [s] to [s'] the cron table is the same,
    every node outside [P] is the same, no node has disappeared and
    the log has only grown. *)
Definition touches (P : string → Prop) (s s' : state) : Prop :=
  crontab s' = crontab s
  ∧ (∀ q, ¬ P q → fs s' !! q = fs s !! q)
  ∧ (∀ q, is_Some (fs s !! q) → is_Some (fs s' !! q))
  ∧ (∃ l, log s' = log s ++ l).

(** A statement is confined to [P] when every run of it, raising or
    not, only [touches] [P]. *)
Definition confined {A} (P : string → Prop) (m : M A) : Prop :=
  ∀ s s' r, m s = (s', r) → touches P s s'.

(** The paths an account's reconciliation may write. *)
Definition account_paths (home_dir : string) (q : string) : Prop :=
  q = ssh_dir_of home_dir ∨ q = keys_file_of home_dir
  ∨ q = backup_file_of home_dir
  ∨ q = Py.path_join (backup_file_of home_dir)
          (Py.basename (keys_file_of home_dir)).

Definition owner_at (f : gmap string node) (p : string) : option (Z * Z) :=
  match f !! p with
  | Some (File _ _ u g) => Some (u, g)
  | Some (Dir _ u g) => Some (u, g)
  | None => None
  end.

(** Lines 145-165: the steps after the backup. *)
Definition write_and_protect (h : host) (user home_dir keys_content : string)
    : M unit :=
  let ssh_dir := ssh_dir_of home_dir in
  let keys_file := keys_file_of home_dir in
  write_text h keys_file keys_content ;;
  chmod h keys_file mode_0600 ;;
  chmod h ssh_dir mode_0700 ;;
  set_ownership h user keys_file ssh_dir ;;
  lift (emit INFO ("Updated authorized_keys for user '" +:+ user
                   +:+ "' (" +:+ keys_file +:+ ")")).

(** The last log record, if any. *)
Definition last_record (s : state) : option (level * string) :=
  List.last (List.map Some (log s)) None.

(** A host on which the process may change nothing. *)
Definition locked_host : host :=
  {| euid := 1000; egid := 1000; umask := 0x12;
     pwd_db := Some demo_db;
     writable := λ _, false;
     urlopen := λ _ _, Response 200 (inl demo_payload);
     python_path := "/usr/bin/python3";
     script_path := "/opt/gridbanner/update-authorized-keys.py";
     crontab_present := true;
     crontab_accepts := λ _, true |}.

(** The deploy account with a key file, owned by root so far. *)
Definition deploy_state : state :=
  {| fs := {[ "/home/deploy" := Dir 0x1ED 1000 1000;
              "/home/deploy/.ssh" := Dir 0x1ED 0 0;
              "/home/deploy/.ssh/authorized_keys" := File "old-key" 0x1A4 0 0 ]};
     crontab := Some ("0 5 * * * /usr/local/bin/backup" +:+ String Py.nl "");
     crontab_decode_error := None; log := [] |}.

(** A statement is inert when no run of it changes a node. *)
Definition inert {A} (m : M A) : Prop :=
  ∀ s s' r, m s = (s', r) → fs s' = fs s.

(** The arguments of a second run that names the accounts by the
    list a first run has embedded in its cron entry. *)
Definition rerun_args (a : args) : args :=
  {| arg_server := arg_server a; arg_key := arg_key a;
     arg_group := arg_group a;
     arg_users := Some (Py.join "," (users_of a));
     arg_install := false; arg_uninstall := false |}.

Definition spaced_args : args :=
  {| arg_server := "http://server:3000/"; arg_key := "adminkey";
     arg_group := "Developers"; arg_users := Some " root , deploy,, ";
     arg_install := true; arg_uninstall := false |}.

(** A run for accounts the user database does not know. *)
Definition ghost_args : args :=
  {| arg_server := "http://server:3000"; arg_key := "adminkey";
     arg_group := "Developers"; arg_users := Some "ghost,phantom";
     arg_install := true; arg_uninstall := false |}.

Definition root_install_args : args :=
  {| arg_server := "http://server:3000"; arg_key := "adminkey";
     arg_group := "Developers"; arg_users := None;
     arg_install := true; arg_uninstall := false |}.

(** A table with a job of this tool between two foreign jobs. *)
Definition mixed_table_state : state :=
  {| fs := ∅;
     crontab :=
       Some ("MAILTO=root" +:+ String Py.nl
               "# GridBanner authorized_keys updater" +:+ String Py.nl
               "*/1 * * * * /usr/bin/python3 /opt/gridbanner/update-authorized-keys.py --server http://old:3000 --key k --group G >> /var/log/gridbanner-keys-update.log 2>&1"
               +:+ String Py.nl
               "0 5 * * * /usr/local/bin/backup" +:+ String Py.nl "");
     crontab_decode_error := None; log := [] |}.

(** A host whose crontab tool rejects every table. *)
Definition rejecting_host : host :=
  {| euid := 0; egid := 0; umask := 0x12;
     pwd_db := Some demo_db;
     writable := λ _, true;
     urlopen := λ _ _, Response 200 (inl demo_payload);
     python_path := "/usr/bin/python3";
     script_path := "/opt/gridbanner/update-authorized-keys.py";
     crontab_present := true;
     crontab_accepts := λ _, false |}.

(** Two hosts that agree on what the scheduler registrar observes:
    the effective uid and the crontab tooling. *)
Definition same_scheduler (h h' : host) : Prop :=
  euid h = euid h' ∧ crontab_present h = crontab_present h'
  ∧ ∀ input, crontab_accepts h input = crontab_accepts h' input.

Definition uninstall_args : args :=
  {| arg_server := "http://server:3000"; arg_key := "adminkey";
     arg_group := "Developers"; arg_users := Some "root,deploy";
     arg_install := true; arg_uninstall := true |}.

(** * Examples of the string primitives *)

Example strip_ex : Py.strip (String Py.nl "  a b " +:+ String Py.nl "") = "a b".
Proof. reflexivity. Qed.

Example split_ex :
  Py.split Py.comma "a,,b," = ["a"; ""; "b"; ""].
Proof. reflexivity. Qed.

Example join_ex : Py.join ", " ["a"; "b"; "c"] = "a, b, c".
Proof. reflexivity. Qed.

Example contains_ex :
  Py.contains "keys.py" "/opt/update-authorized-keys.py --x" = true
  ∧ Py.contains "zz" "abc" = false.
Proof. split; reflexivity. Qed.

Example path_join_ex :
  Py.path_join "/root" ".ssh" = "/root/.ssh"
  ∧ Py.path_join "/" ".ssh" = "/.ssh"
  ∧ Py.basename "/root/.ssh/authorized_keys" = "authorized_keys".
Proof. repeat split; reflexivity. Qed.

Example path_split_ex :
  Py.path_split "/home/deploy/.ssh" = ("/home/deploy", ".ssh")
  ∧ Py.path_split "/root" = ("/", "root")
  ∧ Py.path_split "/home//deploy/" = ("/home//deploy", "")
  ∧ Py.path_split ".ssh" = ("", ".ssh").
Proof. repeat split; reflexivity. Qed.

Example translate_newlines_ex :
  Py.translate_newlines
    ("a" +:+ String Py.cr (String Py.nl "b") +:+ String Py.cr "c")
  = "a" +:+ String Py.nl "b" +:+ String Py.nl "c".
Proof. reflexivity. Qed.

(** * Examples of [makedirs] *)

(** On an empty store the ancestors are made first, with the default
    mode, then the leaf with the mode asked for. *)
Example makedirs_ancestors_ex :
  let r := makedirs ok_host "/home/deploy/.ssh" mode_0700 fresh_state in
  snd r = inr tt
  ∧ fs (fst r) = {[ "/home" := Dir 0x1ED 0 0;
                    "/home/deploy" := Dir 0x1ED 0 0;
                    "/home/deploy/.ssh" := Dir mode_0700 0 0 ]}.
Proof. split; [reflexivity|]. by vm_compute. Qed.

(** A regular file where the home directory should be. *)
Example makedirs_under_file_ex :
  let s := {| fs := {[ "/home" := Dir 0x1ED 0 0;
                       "/home/deploy" := File "" 0x1A4 0 0 ]};
              crontab := None; crontab_decode_error := None; log := [] |} in
  makedirs ok_host "/home/deploy/.ssh" mode_0700 s
  = (s, inl (NotADirectoryError "/home/deploy/.ssh"))
  ∧ snd (update_authorized_keys ok_host "deploy" demo_payload s) = false.
Proof. split; reflexivity. Qed.

(** * Facts about the string primitives *)

Module PyFacts.
Import Py.

Lemma app_cons c s t : String c s +:+ t = String c (s +:+ t).
Proof. reflexivity. Qed.

Lemma app_single c s : String c "" +:+ s = String c s.
Proof. reflexivity. Qed.

Lemma app_nil_l s : "" +:+ s = s.
Proof. reflexivity. Qed.

Lemma app_nil_r s : s +:+ "" = s.
Proof. induction s as [|c s IH]; [done|]. by rewrite app_cons, IH. Qed.

Lemma app_assoc s t u : (s +:+ t) +:+ u = s +:+ t +:+ u.
Proof. induction s as [|c s IH]; [done|]. by rewrite !app_cons, IH. Qed.

Lemma length_app s t :
  String.length (s +:+ t) = (String.length s + String.length t)%nat.
Proof. induction s as [|c s IH]; [done|]. rewrite app_cons. simpl. by rewrite IH. Qed.

Lemma eqc_true a b : eqc a b = true ↔ a = b.
Proof. apply Ascii.eqb_eq. Qed.

Lemma eqc_refl a : eqc a a = true.
Proof. by apply eqc_true. Qed.

(** *** [split] *)

Lemma split_not_nil sep s : split sep s ≠ [].
Proof.
  induction s as [|c s IH]; simpl; [done|].
  destruct (eqc c sep); [done|]. by destruct (split sep s).
Qed.

(** No piece of a split contains the separator. *)
Lemma split_pieces sep s :
  Forall (λ l, has_char sep l = false) (split sep s).
Proof.
  induction s as [|c s IH]; simpl.
  - by constructor.
  - destruct (eqc c sep) eqn:Hc.
    + by constructor.
    + destruct (split sep s) as [|l ls]; inversion IH; subst;
        constructor; simpl; rewrite ?Hc; auto.
Qed.

Lemma split_no_sep sep s : has_char sep s = false → split sep s = [s].
Proof.
  induction s as [|c s IH]; simpl; [done|].
  intros [Hc Hs]%orb_false_iff. rewrite Hc, (IH Hs). done.
Qed.

(** Splitting around one separator. *)
Lemma split_app_sep sep a b :
  split sep (a +:+ String sep b) = split sep a ++ split sep b.
Proof.
  induction a as [|c a IH].
  - rewrite app_nil_l. simpl. by rewrite eqc_refl.
  - rewrite app_cons. simpl. rewrite IH.
    destruct (eqc c sep); [done|].
    pose proof (split_not_nil sep a).
    by destruct (split sep a).
Qed.

Lemma join_cons2 sep x y l :
  join sep (x :: y :: l) = x +:+ sep +:+ join sep (y :: l).
Proof. reflexivity. Qed.

Lemma join_split sep s : join (String sep "") (split sep s) = s.
Proof.
  induction s as [|c s IH]; simpl; [done|].
  pose proof (split_not_nil sep s) as Hne.
  destruct (eqc c sep) eqn:Hc.
  - apply eqc_true in Hc as ->.
    destruct (split sep s) as [|l ls] eqn:E; [done|].
    rewrite join_cons2, IH. done.
  - destruct (split sep s) as [|l ls] eqn:E; [done|].
    destruct ls as [|l' ls].
    + simpl in *. by rewrite IH.
    + rewrite join_cons2 in *. rewrite app_cons. by rewrite IH.
Qed.

Lemma join_snoc sep l x :
  l ≠ [] → join sep (l ++ [x]) = join sep l +:+ sep +:+ x.
Proof.
  induction l as [|a l IH]; [done|]. intros _.
  destruct l as [|b l].
  - reflexivity.
  - change ((a :: b :: l) ++ [x]) with (a :: (b :: l) ++ [x]).
    change ((b :: l) ++ [x]) with (b :: (l ++ [x])) at 1.
    rewrite join_cons2. change (b :: l ++ [x]) with ((b :: l) ++ [x]).
    rewrite IH by done. rewrite join_cons2. by rewrite !app_assoc.
Qed.

(** *** Paths *)

Lemma has_char_startswith c s :
  has_char c s = false → startswith (String c "") s = false.
Proof.
  destruct s as [|a s]; simpl; [done|].
  intros [Ha _]%orb_false_iff.
  rewrite andb_true_r. unfold eqc in *. by rewrite Ascii.eqb_sym.
Qed.

Lemma basename_not_absolute p : startswith "/" (basename p) = false.
Proof.
  apply (has_char_startswith slash). unfold basename.
  pose proof (split_pieces slash p) as HF.
  pose proof (split_not_nil slash p) as Hne.
  induction HF as [|x l Hx HF IH]; [done|].
  destruct l as [|y l]; [done|]. by apply IH.
Qed.

Lemma path_join_length a b :
  startswith "/" b = false →
  (String.length a + String.length b ≤ String.length (path_join a b))%nat.
Proof.
  intros Hb. unfold path_join. rewrite Hb.
  destruct (negb (truthy a) || endswith_char slash a);
    rewrite !length_app; simpl; lia.
Qed.

End PyFacts.

(** * Facts about path splitting *)

Module PathFacts.
Import Py PyFacts.

Lemma prefix_app a b : startswith a (a +:+ b) = true.
Proof.
  induction a as [|c a IH]; [done|].
  rewrite app_cons. simpl. by rewrite eqc_refl, IH.
Qed.

Lemma prefix_refl a : startswith a a = true.
Proof. rewrite <-(app_nil_r a) at 2. apply prefix_app. Qed.

Lemma prefix_inv a b : startswith a b = true → ∃ t, b = a +:+ t.
Proof.
  revert b. induction a as [|c a IH]; intros b H.
  - by exists b.
  - destruct b as [|d b]; [done|]. simpl in H.
    apply andb_true_iff in H as [->%eqc_true [t ->]%IH]. by exists t.
Qed.

Lemma prefix_trans a b c :
  startswith a b = true → startswith b c = true → startswith a c = true.
Proof.
  intros [t ->]%prefix_inv [u ->]%prefix_inv.
  rewrite app_assoc. apply prefix_app.
Qed.

Lemma prefix_length a b :
  startswith a b = true → (String.length a ≤ String.length b)%nat.
Proof. intros [t ->]%prefix_inv. rewrite length_app. lia. Qed.

Lemma prefix_rstrip f a : startswith (rstrip_by f a) a = true.
Proof.
  induction a as [|c a IH]; [done|]. simpl.
  destruct (rstrip_by f a) as [|d r] eqn:E.
  - destruct (f c); [done|]. simpl. by rewrite eqc_refl.
  - simpl. by rewrite eqc_refl.
Qed.

Lemma rsplit_slash_app p : p = (rsplit_slash p).1 +:+ (rsplit_slash p).2.
Proof.
  induction p as [|c p IH]; [done|]. simpl.
  destruct (rsplit_slash p) as [hd tl]. simpl in IH.
  destruct (truthy hd) eqn:E; simpl.
  - by rewrite app_cons, <-IH.
  - destruct hd; [|done]. rewrite app_nil_l in IH. subst tl.
    by destruct (eqc c slash).
Qed.

(** The directory part of a path is a prefix of the path. *)
Lemma path_split_prefix p : startswith (path_split p).1 p = true.
Proof.
  unfold path_split. pose proof (rsplit_slash_app p) as Hp.
  destruct (rsplit_slash p) as [hd tl]. simpl in *.
  assert (startswith hd p = true) as Hhd by (rewrite Hp; apply prefix_app).
  destruct (truthy hd && negb (is_root hd)); [|done].
  eapply prefix_trans; [apply prefix_rstrip|done].
Qed.

(** With something after the last slash, the directory part is
    strictly shorter than the path. *)
Lemma path_split_shorter p :
  truthy (path_split p).2 = true →
  (String.length (path_split p).1 < String.length p)%nat.
Proof.
  unfold path_split. pose proof (rsplit_slash_app p) as Hp.
  destruct (rsplit_slash p) as [hd tl]. simpl in *. intros Htl.
  assert (String.length hd < String.length p)%nat as Hlt.
  { rewrite Hp, length_app. destruct tl; [done|]. simpl. lia. }
  destruct (truthy hd && negb (is_root hd)); [|done].
  pose proof (prefix_length _ _ (prefix_rstrip (eqc slash) hd)). lia.
Qed.

Lemma rsplit_no_slash t : has_char slash t = false → rsplit_slash t = ("", t).
Proof.
  induction t as [|c t IH]; [done|]. simpl.
  intros [Hc Ht]%orb_false_iff. by rewrite (IH Ht), Hc.
Qed.

Lemma rsplit_app_slash a t :
  has_char slash t = false →
  rsplit_slash (a +:+ String slash t) = (a +:+ "/", t).
Proof.
  intros Ht. induction a as [|c a IH].
  - rewrite !app_nil_l. simpl. by rewrite (rsplit_no_slash t Ht).
  - rewrite !app_cons. simpl. rewrite IH. by destruct a.
Qed.

Lemma endswith_char_inv c a :
  endswith_char c a = true → ∃ b, a = b +:+ String c "".
Proof.
  induction a as [|d a IH]; [done|]. simpl.
  destruct a as [|e a].
  - intros ->%eqc_true. by exists "".
  - intros [b Hb]%IH. exists (String d b). by rewrite app_cons, <-Hb.
Qed.

(** The [.ssh] path of any home directory splits into a directory
    part and the name [.ssh]. *)
Lemma rsplit_ssh_dir home_dir :
  (rsplit_slash (path_join home_dir ".ssh")).2 = ".ssh".
Proof.
  unfold path_join. cbn [startswith eqc Ascii.eqb Bool.eqb andb].
  change (startswith "/" ".ssh") with false. cbn iota.
  destruct (negb (truthy home_dir) || endswith_char slash home_dir) eqn:E.
  - apply orb_true_iff in E as [E|E].
    + destruct home_dir; [|done]. reflexivity.
    + apply endswith_char_inv in E as [b ->].
      rewrite app_assoc, app_single. by rewrite rsplit_app_slash.
  - change ("/" +:+ ".ssh") with (String slash ".ssh").
    by rewrite rsplit_app_slash.
Qed.

Lemma path_split_tail p : (path_split p).2 = (rsplit_slash p).2.
Proof. unfold path_split. by destruct (rsplit_slash p). Qed.

Lemma all_slashes_tail p :
  lstrip_by (eqc slash) p = "" → (rsplit_slash p).2 = "".
Proof.
  induction p as [|c p IH]; [done|]. cbn [lstrip_by rsplit_slash].
  destruct (eqc slash c) eqn:E; [|done]. intros Hp.
  specialize (IH Hp). destruct (rsplit_slash p) as [hd tl]. simpl in IH.
  subst tl. apply eqc_true in E as <-.
  destruct (truthy hd); [done|]. by rewrite eqc_refl.
Qed.

Lemma is_root_tail p : is_root p = true → (rsplit_slash p).2 = "".
Proof.
  unfold is_root. intros [_ H]%andb_true_iff. apply all_slashes_tail.
  apply negb_true_iff in H. by destruct (lstrip_by _ p).
Qed.

Lemma ssh_dir_not_root home_dir : is_root (path_join home_dir ".ssh") = false.
Proof.
  destruct (is_root _) eqn:E; [|done].
  apply is_root_tail in E. by rewrite rsplit_ssh_dir in E.
Qed.

End PathFacts.

(** * The account key reconciler *)

Section Reconciler.

Variable h : host.

Import Py PyFacts PathFacts.

(** The three paths of an account never coincide, and neither does
    the place [copy2] picks inside a directory at the backup path. *)
Lemma paths_distinct home_dir :
  let ssh_dir := ssh_dir_of home_dir in
  let keys_file := keys_file_of home_dir in
  let backup_file := backup_file_of home_dir in
  let inside := path_join backup_file (basename keys_file) in
  keys_file ≠ ssh_dir ∧ backup_file ≠ keys_file ∧ backup_file ≠ ssh_dir
  ∧ inside ≠ keys_file ∧ inside ≠ ssh_dir.
Proof.
  intros ssh_dir keys_file backup_file inside.
  assert (String.length ssh_dir + 15 ≤ String.length keys_file)%nat as H1
    by (apply (path_join_length ssh_dir "authorized_keys"); reflexivity).
  assert (String.length backup_file = String.length keys_file + 7)%nat as H2
    by (unfold backup_file, backup_file_of; by rewrite length_app).
  assert (String.length backup_file ≤ String.length inside)%nat as H3.
  { pose proof (path_join_length backup_file (basename keys_file)
                  (basename_not_absolute _)). unfold inside. lia. }
  repeat split; intros E; apply (f_equal String.length) in E; lia.
Qed.

Ltac run_op :=
  unfold write_text, copy2, chmod, chown, guard_writable,
    bind, lift, raise, ret in *;
  repeat case_match; simplify_eq; simpl in *.

(** *** Creating the directory *)

Lemma grows_refl P s : grows_within P s s.
Proof. repeat split; auto. Qed.

Lemma grows_trans P s1 s2 s3 :
  grows_within P s1 s2 → grows_within P s2 s3 → grows_within P s1 s3.
Proof.
  intros (Hc1 & Hd1 & Hl1 & Hf1) (Hc2 & Hd2 & Hl2 & Hf2).
  split_and!; [congruence..|]. intros q.
  destruct (Hf1 q) as [E1|(N1 & D1 & P1)], (Hf2 q) as [E2|(N2 & D2 & P2)].
  - left. congruence.
  - right. rewrite <-E1. done.
  - right. rewrite E2. done.
  - rewrite N2 in D1. done.
Qed.

Lemma grows_weaken (P Q : string → Prop) s s' :
  (∀ q, P q → Q q) → grows_within P s s' → grows_within Q s s'.
Proof.
  intros HPQ (Hc & Hd & Hl & Hf). split_and!; [done..|].
  intros q. destruct (Hf q) as [E|(N & D & Pq)]; [by left|right; auto].
Qed.

Lemma mkdir_inv p mode s s' r :
  mkdir h p mode s = (s', r) →
  (s' = s ∧ ∃ e, r = inl e)
  ∨ (r = inr tt ∧ fs s !! p = None
     ∧ ∃ m u g, s' = set_fs (<[p := Dir m u g]> (fs s)) s).
Proof.
  unfold mkdir, path_exists, guard_writable, bind, lift, raise, ret.
  destruct (is_root p || bool_decide (is_Some (fs s !! p))) eqn:Ex;
    [intros [= <- <-]; eauto|].
  apply orb_false_iff in Ex as [_ Ex]. apply bool_decide_eq_false in Ex.
  apply eq_None_not_Some in Ex.
  repeat case_match; intros; simplify_eq; eauto 10.
Qed.

Lemma mkdir_grows p mode s s' r :
  mkdir h p mode s = (s', r) → grows_within (eq p) s s'.
Proof.
  intros [[-> _]|(_ & Hnone & m & u & g & ->)]%mkdir_inv;
    [apply grows_refl|].
  split_and!; [done..|]. intros q. simpl.
  destruct (decide (p = q)) as [<-|Hne].
  - right. by rewrite lookup_insert_eq.
  - left. by rewrite lookup_insert_ne.
Qed.

Lemma mkdir_leaf_grows name mode s s' r :
  mkdir_leaf h name mode s = (s', r) → grows_within (eq name) s s'.
Proof.
  unfold mkdir_leaf.
  destruct (mkdir h name mode s) as [s1 r1] eqn:E.
  apply mkdir_grows in E.
  repeat case_match; intros; by simplify_eq.
Qed.

Lemma mkdir_leaf_ok name mode s s' :
  mkdir_leaf h name mode s = (s', inr tt) → dir_exists name s' = true.
Proof.
  unfold mkdir_leaf.
  destruct (mkdir h name mode s) as [s1 r1] eqn:E.
  apply mkdir_inv in E as [[-> [e ->]]|(-> & _ & m & u & g & ->)].
  - destruct e; try done;
      (destruct (dir_exists name s) eqn:D; [by intros [= <-]|done]).
  - intros [= <-]. unfold dir_exists. simpl.
    rewrite lookup_insert_eq. apply orb_true_r.
Qed.

Lemma makedirs_rec_step fuel name mode s :
  makedirs_rec h (S fuel) name mode s
  = let '(hd, tl) := path_split name in
    let '(hd, tl) := if truthy tl then (hd, tl) else path_split hd in
    if truthy hd && truthy tl && negb (is_root hd || path_exists hd s) then
      match makedirs_rec h fuel hd 0x1FF s with
      | (s', inl (FileExistsError _)) | (s', inr _) =>
          if String.eqb tl "." then (s', inr tt) else mkdir_leaf h name mode s'
      | (s', inl e) => (s', inl e)
      end
    else mkdir_leaf h name mode s.
Proof.
  cbn [makedirs_rec]. destruct (path_split name) as [hd tl].
  by destruct (if truthy tl then (hd, tl) else path_split hd) as [hd' tl'].
Qed.

(** [makedirs] only creates directories, at free paths that are
    prefixes of the name. *)
Lemma makedirs_rec_grows fuel name mode s s' r :
  makedirs_rec h fuel name mode s = (s', r) →
  grows_within (λ q, startswith q name = true) s s'.
Proof.
  revert name mode s s' r.
  induction fuel as [|fuel IH]; intros name mode s s' r.
  { intros [= <- _]. apply grows_refl. }
  rewrite makedirs_rec_step.
  pose proof (path_split_prefix name) as Hp1.
  destruct (path_split name) as [hd1 tl1] eqn:E1. simpl in Hp1.
  assert (∀ hd tl, (if truthy tl1 then (hd1, tl1) else path_split hd1)
                   = (hd, tl) → startswith hd name = true) as Hp2.
  { intros hd tl. destruct (truthy tl1); [by intros [= <- _]|].
    intros E2. pose proof (path_split_prefix hd1) as Hp.
    rewrite E2 in Hp. simpl in Hp. by eapply prefix_trans. }
  destruct (if truthy tl1 then (hd1, tl1) else path_split hd1)
    as [hd tl] eqn:E2.
  specialize (Hp2 hd tl eq_refl).
  assert (∀ s0 s1 r1, mkdir_leaf h name mode s0 = (s1, r1) →
            grows_within (λ q, startswith q name = true) s0 s1) as Hleaf.
  { intros s0 s1 r1 Hl%mkdir_leaf_grows.
    eapply grows_weaken; [|exact Hl]. simpl. intros q <-. apply prefix_refl. }
  destruct (truthy hd && truthy tl && negb (is_root hd || path_exists hd s));
    [|by apply Hleaf].
  destruct (makedirs_rec h fuel hd 0x1FF s) as [s1 r1] eqn:Hrec.
  apply IH in Hrec.
  assert (grows_within (λ q, startswith q name = true) s s1) as Hg1.
  { eapply grows_weaken; [|exact Hrec]. simpl. intros q Hq.
    exact (prefix_trans _ _ _ Hq Hp2). }
  assert (∀ s2 r2,
            (if String.eqb tl "." then (s1, inr tt)
             else mkdir_leaf h name mode s1) = (s2, r2) →
            grows_within (λ q, startswith q name = true) s s2) as Hrest.
  { intros s2 r2. destruct (String.eqb tl ".").
    - by intros [= <- _].
    - intros Hl%Hleaf. by eapply grows_trans. }
  destruct r1 as [e|[]]; [|by apply Hrest].
  destruct e; try (by intros [= <- _]). by apply Hrest.
Qed.

Lemma mkdir_leaf_error name mode s s' e :
  mkdir_leaf h name mode s = (s', inl e) → e ≠ RecursionError.
Proof.
  unfold mkdir_leaf, mkdir, guard_writable, bind, lift, raise, ret.
  repeat case_match; intros; by simplify_eq.
Qed.

(** The bound on the recursion of [makedirs] is never used up. *)
Lemma makedirs_rec_fuel fuel name mode s s' e :
  (String.length name < fuel)%nat →
  makedirs_rec h fuel name mode s = (s', inl e) → e ≠ RecursionError.
Proof.
  revert name mode s s' e.
  induction fuel as [|fuel IH]; intros name mode s s' e Hlen; [lia|].
  rewrite makedirs_rec_step.
  pose proof (path_split_shorter name) as Hs1.
  pose proof (path_split_prefix name) as Hp1.
  destruct (path_split name) as [hd1 tl1] eqn:E1. simpl in Hs1, Hp1.
  apply prefix_length in Hp1.
  assert (∀ hd tl, (if truthy tl1 then (hd1, tl1) else path_split hd1)
                   = (hd, tl) → truthy tl = true →
                   (String.length hd < String.length name)%nat) as Hs2.
  { intros hd tl. destruct (truthy tl1) eqn:Et.
    - intros [= <- <-] _. by apply Hs1.
    - intros E2 Htl. pose proof (path_split_shorter hd1) as Hs.
      rewrite E2 in Hs. simpl in Hs. specialize (Hs Htl). lia. }
  destruct (if truthy tl1 then (hd1, tl1) else path_split hd1)
    as [hd tl] eqn:E2.
  specialize (Hs2 hd tl eq_refl).
  destruct (truthy hd && truthy tl && negb (is_root hd || path_exists hd s))
    eqn:Ec; [|apply mkdir_leaf_error].
  apply andb_true_iff in Ec as [[_ Htl]%andb_true_iff _].
  specialize (Hs2 Htl).
  destruct (makedirs_rec h fuel hd 0x1FF s) as [s1 r1] eqn:Hrec.
  assert (∀ s2 e2,
            (if String.eqb tl "." then (s1, inr tt)
             else mkdir_leaf h name mode s1) = (s2, inl e2) →
            e2 ≠ RecursionError) as Hrest.
  { intros s2 e2. destruct (String.eqb tl "."); [done|].
    apply mkdir_leaf_error. }
  destruct r1 as [e1|[]]; [|apply Hrest].
  assert (e1 ≠ RecursionError) as Hne by (eapply IH; [|exact Hrec]; lia).
  destruct e1; try done; first [apply Hrest | by intros [= <- <-]].
Qed.

Lemma makedirs_fuel p mode s s' e :
  makedirs h p mode s = (s', inl e) → e ≠ RecursionError.
Proof. apply makedirs_rec_fuel. lia. Qed.

Lemma makedirs_grows p mode s s' r :
  makedirs h p mode s = (s', r) →
  grows_within (λ q, startswith q p = true) s s'.
Proof. apply makedirs_rec_grows. Qed.

(** What [makedirs] leaves at the paths longer than its argument. *)
Lemma makedirs_frame p mode s s' r :
  makedirs h p mode s = (s', r) →
  ∀ q, (String.length p < String.length q)%nat → fs s' !! q = fs s !! q.
Proof.
  intros (_ & _ & _ & Hf)%makedirs_grows q Hq.
  destruct (Hf q) as [E|(_ & _ & Hpre)]; [done|].
  apply prefix_length in Hpre. lia.
Qed.

Lemma makedirs_ssh_ok home_dir mode s s' :
  makedirs h (ssh_dir_of home_dir) mode s = (s', inr tt) →
  is_dir (fs s' !! ssh_dir_of home_dir) = true.
Proof.
  unfold makedirs. rewrite makedirs_rec_step.
  pose proof (rsplit_ssh_dir home_dir) as Htl.
  rewrite <-path_split_tail in Htl. fold (ssh_dir_of home_dir) in Htl.
  destruct (path_split (ssh_dir_of home_dir)) as [hd tl]. simpl in Htl.
  subst tl. cbn [truthy].
  assert (∀ s0, mkdir_leaf h (ssh_dir_of home_dir) mode s0 = (s', inr tt) →
                is_dir (fs s' !! ssh_dir_of home_dir) = true) as Hleaf.
  { intros s0 Hl%mkdir_leaf_ok. unfold dir_exists in Hl.
    unfold ssh_dir_of in Hl at 1.
    by rewrite (ssh_dir_not_root home_dir) in Hl. }
  change (String.eqb ".ssh" ".") with false.
  destruct (truthy hd && true && negb (is_root hd || path_exists hd s));
    [|by apply Hleaf].
  destruct (makedirs_rec h _ hd 0x1FF s) as [s1 [e|[]]]; [|by apply Hleaf].
  destruct e; try done. by apply Hleaf.
Qed.

(** The paths of an account below its [.ssh] directory are longer
    than the path of that directory. *)
Lemma paths_longer home_dir :
  let n := String.length (ssh_dir_of home_dir) in
  (n < String.length (keys_file_of home_dir))%nat
  ∧ (n < String.length (backup_file_of home_dir))%nat
  ∧ (n < String.length (path_join (backup_file_of home_dir)
                          (basename (keys_file_of home_dir))))%nat.
Proof.
  intros n.
  assert (n + 15 ≤ String.length (keys_file_of home_dir))%nat as H1
    by (apply (path_join_length (ssh_dir_of home_dir) "authorized_keys");
        reflexivity).
  assert (String.length (backup_file_of home_dir)
          = String.length (keys_file_of home_dir) + 7)%nat as H2
    by (unfold backup_file_of; by rewrite length_app).
  pose proof (path_join_length (backup_file_of home_dir)
                (basename (keys_file_of home_dir)) (basename_not_absolute _)).
  lia.
Qed.

Lemma write_text_ok p text s s' :
  write_text h p text s = (s', inr tt) →
  (∃ m u g, fs s' !! p = Some (File text m u g))
  ∧ ∀ q, q ≠ p → fs s' !! q = fs s !! q.
Proof.
  intros H. run_op;
    (split; [rewrite lookup_insert_eq; eauto
            |intros q Hq; by rewrite lookup_insert_ne]).
Qed.

Lemma chmod_ok p mode s s' :
  chmod h p mode s = (s', inr tt) →
  (∃ n, fs s !! p = Some n ∧ fs s' !! p = Some (with_mode mode n))
  ∧ ∀ q, q ≠ p → fs s' !! q = fs s !! q.
Proof.
  intros H. run_op.
  split; [rewrite lookup_insert_eq; eauto
         |intros q Hq; by rewrite lookup_insert_ne].
Qed.

Lemma chown_ok p uid gid s s' :
  chown h p uid gid s = (s', inr tt) →
  (∃ n, fs s !! p = Some n ∧ fs s' !! p = Some (with_owner uid gid n))
  ∧ ∀ q, q ≠ p → fs s' !! q = fs s !! q.
Proof.
  intros H. run_op.
  split; [rewrite lookup_insert_eq; eauto
         |intros q Hq; by rewrite lookup_insert_ne].
Qed.

Lemma copy2_ok src dst s s' :
  copy2 h src dst s = (s', inr tt) →
  (∃ c m u g u' g', fs s !! src = Some (File c m u g)
     ∧ fs s' !! copy2_target src dst s = Some (File c m u' g'))
  ∧ ∀ q, q ≠ copy2_target src dst s → fs s' !! q = fs s !! q.
Proof.
  intros H. unfold copy2_target. run_op;
    (split; [rewrite lookup_insert_eq; eauto 10
            |intros q Hq; by rewrite lookup_insert_ne]).
Qed.

Lemma bind_ok {A B} (m : M A) (k : A → M B) s s' b :
  bind m k s = (s', inr b) →
  ∃ s1 a, m s = (s1, inr a) ∧ k a s1 = (s', inr b).
Proof.
  unfold bind. destruct (m s) as [s1 [e|a]]; [done|]. eauto.
Qed.

Lemma chown_same_data p uid gid s s' :
  chown h p uid gid s = (s', inr tt) →
  (∀ q, same_data (fs s) (fs s') q)
  ∧ ∀ q, q ≠ p → fs s' !! q = fs s !! q.
Proof.
  intros [(n & Hn & Hn') Hframe]%chown_ok. split; [|done].
  intros q. unfold same_data, read_file, mode_at.
  destruct (decide (q = p)) as [->|Hq].
  - rewrite Hn, Hn'. by destruct n.
  - by rewrite (Hframe q Hq).
Qed.

Lemma set_ownership_ok user keys_file ssh_dir s s' :
  set_ownership h user keys_file ssh_dir s = (s', inr tt) →
  (∀ q, same_data (fs s) (fs s') q)
  ∧ ∀ q, q ≠ keys_file → q ≠ ssh_dir → fs s' !! q = fs s !! q.
Proof.
  unfold set_ownership. intros H.
  assert (s' = s ∨ ∃ uid gid s1,
            chown h keys_file uid gid s = (s1, inr tt)
            ∧ chown h ssh_dir uid gid s1 = (s', inr tt)) as [->|Hch].
  { repeat case_match; unfold ret in *; simplify_eq; auto.
    apply bind_ok in H as (s1 & [] & Hc1 & Hc2). eauto 10. }
  - by split.
  - destruct Hch as (uid & gid & s1 & [Ha Hb]%chown_same_data
                                     & [Hc Hd]%chown_same_data).
    split.
    + intros q. destruct (Ha q) as (?&?&?), (Hc q) as (?&?&?).
      unfold same_data. repeat split; congruence.
    + intros q ??. rewrite Hd, Hb; done.
Qed.

Lemma backup_existing_ok keys_file backup_file s s' :
  backup_existing h keys_file backup_file s = (s', inr tt) →
  (fs s !! keys_file = None ∧ fs s' = fs s)
  ∨ (∃ c m u g u' g', fs s !! keys_file = Some (File c m u g)
       ∧ fs s' !! copy2_target keys_file backup_file s
           = Some (File c m u' g')
       ∧ ∀ q, q ≠ copy2_target keys_file backup_file s →
              fs s' !! q = fs s !! q).
Proof.
  unfold backup_existing, path_exists. intros H.
  case_bool_decide as Hex.
  - right. apply bind_ok in H as (s1 & [] & [Hc Hf]%copy2_ok & H2).
    unfold lift in H2. simplify_eq. simpl.
    destruct Hc as (c & m & u & g & u' & g' & ? & ?). eauto 12.
  - left. unfold ret in H. simplify_eq. split; [|done].
    by apply eq_None_not_Some.
Qed.

(** A successful run went through the home-directory lookup and
    through every step of the writing part. *)
Lemma update_ok_inv user keys_content s s' :
  update_authorized_keys h user keys_content s = (s', true) →
  ∃ home_dir, resolve_home h user s = (s, Some home_dir)
              ∧ install_keys h user home_dir keys_content s = (s', inr tt).
Proof.
  unfold update_authorized_keys. intros H.
  destruct (resolve_home h user s) as [s1 [home_dir|]] eqn:Hres; [|done].
  assert (s1 = s) as ->.
  { unfold resolve_home in Hres. repeat case_match; by simplify_eq. }
  exists home_dir. split; [done|].
  destruct (install_keys h user home_dir keys_content s) as [s2 [e|[]]];
    [by destruct e|by simplify_eq].
Qed.

(** What holds after the writing part has succeeded. *)
Lemma install_keys_post user home_dir keys_content s s' :
  install_keys h user home_dir keys_content s = (s', inr tt) →
  let ssh_dir := ssh_dir_of home_dir in
  let keys_file := keys_file_of home_dir in
  let backup_file := backup_file_of home_dir in
  read_file (fs s') keys_file = Some keys_content
  ∧ mode_at (fs s') keys_file = Some mode_0600
  ∧ is_dir (fs s' !! ssh_dir) = true
  ∧ mode_at (fs s') ssh_dir = Some mode_0700
  ∧ (∀ X, read_file (fs s) keys_file = Some X →
          is_dir (fs s !! backup_file) = false →
          read_file (fs s') backup_file = Some X)
  ∧ (fs s !! keys_file = None →
     fs s' !! backup_file = fs s !! backup_file).
Proof.
  intros H ssh_dir keys_file backup_file.
  destruct (paths_distinct home_dir) as (Hks & Hbk & Hbs & Hik & His).
  fold ssh_dir keys_file backup_file in Hks, Hbk, Hbs, Hik, His.
  unfold install_keys in H. fold ssh_dir keys_file backup_file in H.
  apply bind_ok in H as (s1 & [] & Hmk & H).
  pose proof (makedirs_ssh_ok _ _ _ _ Hmk) as Hd1.
  pose proof (makedirs_frame _ _ _ _ _ Hmk) as Hf1.
  destruct (paths_longer home_dir) as (Hlk & Hlb & _).
  fold ssh_dir keys_file backup_file in Hd1, Hf1, Hlk, Hlb.
  apply bind_ok in H as (s2 & [] & Hbak%backup_existing_ok & H).
  apply bind_ok in H as (s3 & [] & [(m3 & u3 & g3 & Hw) Hf3]%write_text_ok & H).
  apply bind_ok in H as (s4 & [] & [(n4 & Hn4 & Hn4') Hf4]%chmod_ok & H).
  apply bind_ok in H as (s5 & [] & [(n5 & Hn5 & Hn5') Hf5]%chmod_ok & H).
  apply bind_ok in H as (s6 & [] & [Hsame Hf6]%set_ownership_ok & H).
  unfold lift in H. injection H as <-. simpl.
  (* the keys file after the write and the two chmods *)
  rewrite Hw in Hn4. simplify_eq. simpl in Hn4'.
  assert (fs s5 !! keys_file = Some (File keys_content mode_0600 u3 g3)) as Hk5
    by (by rewrite Hf5).
  (* the directory: made, untouched by the backup and the write *)
  assert (is_dir (fs s2 !! ssh_dir) = true) as Hd2.
  { destruct Hbak as [[_ ->]|(?&?&?&?&?&?&_&_&Hf2)]; [done|].
    rewrite Hf2; [done|]. unfold copy2_target.
    destruct (is_dir (fs s1 !! backup_file)); intros E;
      [by apply His|by apply Hbs]. }
  assert (is_dir (fs s4 !! ssh_dir) = true) as Hd4.
  { rewrite Hf4, Hf3 by (by apply not_eq_sym). done. }
  rewrite Hn5 in Hd4.
  destruct (Hsame keys_file) as (Hr1 & Hm1 & _).
  destruct (Hsame ssh_dir) as (_ & Hm2 & Hi2).
  split_and!.
  - rewrite Hr1. unfold read_file. by rewrite Hk5.
  - rewrite Hm1. unfold mode_at. by rewrite Hk5.
  - rewrite Hi2, Hn5'. by destruct n5.
  - rewrite Hm2. unfold mode_at. rewrite Hn5'. by destruct n5.
  - intros X HX Hnd.
    assert (fs s1 !! keys_file = fs s !! keys_file) as Hk1 by by apply Hf1.
    assert (fs s1 !! backup_file = fs s !! backup_file) as Hb1 by by apply Hf1.
    destruct Hbak as [[Hnone _]|(c&m&u&g&u'&g'&Hsrc&Hdst&_)].
    { unfold read_file in HX. rewrite <-Hk1, Hnone in HX. done. }
    unfold copy2_target in Hdst. rewrite Hb1, Hnd in Hdst.
    unfold read_file in HX. rewrite <-Hk1, Hsrc in HX. simplify_eq.
    unfold read_file.
    rewrite Hf6, Hf5, Hf4, Hf3, Hdst by done. done.
  - intros Hnone.
    rewrite Hf6, Hf5, Hf4, Hf3 by done.
    destruct Hbak as [[_ ->]|(c&m&u&g&u'&g'&Hsrc&_&_)].
    + by apply Hf1.
    + rewrite Hf1 in Hsrc by done. congruence.
Qed.

(** *** When the writing part goes through *)

Lemma bind_run {A B} (m : M A) (k : A → M B) s s1 a :
  m s = (s1, inr a) → bind m k s = k a s1.
Proof. unfold bind. by intros ->. Qed.

Section Permitted.

Hypothesis Hw : ∀ p, writable h p = true.

(** [makedirs] on the [.ssh] path succeeds when the directory part
    of that path, if it has one, is an existing directory, and no
    regular file sits at the path. *)
Lemma makedirs_runs home_dir mode s :
  (truthy (path_split (ssh_dir_of home_dir)).1 = true →
   dir_exists (path_split (ssh_dir_of home_dir)).1 s = true) →
  (∀ c m u g, fs s !! ssh_dir_of home_dir ≠ Some (File c m u g)) →
  ∃ s', makedirs h (ssh_dir_of home_dir) mode s = (s', inr tt).
Proof.
  intros Hpar Hnf. unfold makedirs. rewrite makedirs_rec_step.
  unfold mkdir_leaf, mkdir.
  pose proof (rsplit_ssh_dir home_dir) as Htl.
  rewrite <-path_split_tail in Htl. fold (ssh_dir_of home_dir) in Htl.
  destruct (path_split (ssh_dir_of home_dir)) as [hd tl]. simpl in *.
  subst tl. cbn [truthy].
  assert (truthy hd && true && negb (is_root hd || path_exists hd s) = false)
    as ->.
  { destruct (truthy hd); [|done]. specialize (Hpar eq_refl).
    unfold dir_exists in Hpar. unfold path_exists.
    destruct (is_root hd); [done|]. simpl in *.
    destruct (fs s !! hd) as [[]|]; [done| |done].
    by rewrite bool_decide_eq_true_2. }
  unfold ssh_dir_of at 1. rewrite (ssh_dir_not_root home_dir).
  fold (ssh_dir_of home_dir). unfold path_exists. simpl.
  destruct (fs s !! ssh_dir_of home_dir) as [[c m u g|m u g]|] eqn:E.
  - by destruct (Hnf c m u g).
  - rewrite bool_decide_eq_true_2 by eauto. unfold raise, dir_exists.
    rewrite E. rewrite orb_true_r. eauto.
  - rewrite bool_decide_eq_false_2 by (by intros [? ?]).
    assert (truthy hd && negb (dir_exists hd s) = false) as ->.
    { destruct (truthy hd); [|done]. by rewrite Hpar. }
    unfold guard_writable, bind, lift, ret. rewrite Hw. eauto.
Qed.

Lemma write_text_runs p text s :
  is_dir (fs s !! p) = false → ∃ s', write_text h p text s = (s', inr tt).
Proof.
  intros Hnd. unfold write_text, guard_writable, bind, lift, ret.
  rewrite Hw. destruct (fs s !! p) as [[c m u g|m u g]|]; eauto. done.
Qed.

Lemma chmod_runs p mode s :
  is_Some (fs s !! p) → ∃ s', chmod h p mode s = (s', inr tt).
Proof.
  intros [n Hn]. unfold chmod, guard_writable, bind, lift, ret.
  rewrite Hw, Hn. eauto.
Qed.

Lemma chown_runs p uid gid s :
  is_Some (fs s !! p) → ∃ s', chown h p uid gid s = (s', inr tt).
Proof.
  intros [n Hn]. unfold chown, guard_writable, bind, lift, ret.
  rewrite Hw, Hn. eauto.
Qed.

Lemma backup_existing_runs keys_file backup_file s :
  is_dir (fs s !! keys_file) = false →
  is_dir (fs s !! backup_file) = false →
  ∃ s', backup_existing h keys_file backup_file s = (s', inr tt).
Proof.
  intros Hk Hb. unfold backup_existing, path_exists.
  case_bool_decide as Hex; [|unfold ret; eauto].
  destruct Hex as [n Hn]. rewrite Hn in Hk.
  unfold copy2, guard_writable, bind, lift, ret. rewrite Hn, Hb, Hw.
  destruct n as [c m u g|]; [|done].
  destruct (fs s !! backup_file) as [[c' m' u' g'|]|]; eauto. done.
Qed.

Lemma set_ownership_runs user keys_file ssh_dir s :
  is_Some (fs s !! keys_file) → is_Some (fs s !! ssh_dir) →
  ∃ s', set_ownership h user keys_file ssh_dir s = (s', inr tt).
Proof.
  intros Hk Hs. unfold set_ownership, ret.
  destruct (euid h =? 0); [|eauto].
  destruct (pwd_db h) as [db|]; [|eauto].
  destruct (db !! user) as [ent|]; [|eauto].
  destruct (chown_runs keys_file (pw_uid ent) (pw_gid ent) s Hk) as [s1 H1].
  rewrite (bind_run _ _ _ _ _ H1).
  apply chown_runs.
  apply chown_ok in H1 as [(n & Hn & Hn') Hfr].
  destruct (decide (ssh_dir = keys_file)) as [->|Hne]; [by rewrite Hn'|].
  by rewrite Hfr.
Qed.

(** With every access granted, the writing part succeeds when the
    directory part of the [.ssh] path is an existing directory, unless
    a regular file sits where the [.ssh] directory goes or a directory
    where the key file or its backup goes. *)
Lemma install_keys_runs user home_dir keys_content s :
  (truthy (path_split (ssh_dir_of home_dir)).1 = true →
   dir_exists (path_split (ssh_dir_of home_dir)).1 s = true) →
  (∀ c m u g, fs s !! ssh_dir_of home_dir ≠ Some (File c m u g)) →
  is_dir (fs s !! keys_file_of home_dir) = false →
  is_dir (fs s !! backup_file_of home_dir) = false →
  ∃ s', install_keys h user home_dir keys_content s = (s', inr tt).
Proof.
  intros Hpar Hssh Hkeys Hbak.
  destruct (paths_distinct home_dir) as (Hks & Hbk & Hbs & _ & _).
  destruct (paths_longer home_dir) as (Hlk & Hlb & _).
  unfold install_keys.
  destruct (makedirs_runs home_dir mode_0700 s Hpar Hssh) as [s1 R1].
  rewrite (bind_run _ _ _ _ _ R1).
  pose proof (makedirs_ssh_ok _ _ _ _ R1) as Hd1.
  pose proof (makedirs_frame _ _ _ _ _ R1) as Hf1.
  assert (is_dir (fs s1 !! keys_file_of home_dir) = false) as Hk1
    by (by rewrite Hf1).
  assert (is_dir (fs s1 !! backup_file_of home_dir) = false) as Hb1
    by (by rewrite Hf1).
  destruct (backup_existing_runs _ _ s1 Hk1 Hb1) as [s2 R2].
  rewrite (bind_run _ _ _ _ _ R2).
  assert (is_dir (fs s2 !! keys_file_of home_dir) = false
          ∧ is_Some (fs s2 !! ssh_dir_of home_dir)) as [Hk2 Hs2].
  { apply backup_existing_ok in R2 as [[_ ->]|(?&?&?&?&?&?&_&_&Hf2)].
    - split; [done|]. by destruct (fs s1 !! ssh_dir_of home_dir) as [[]|].
    - unfold copy2_target in Hf2. rewrite Hb1 in Hf2.
      rewrite !Hf2 by (by apply not_eq_sym).
      split; [done|]. by destruct (fs s1 !! ssh_dir_of home_dir) as [[]|]. }
  destruct (write_text_runs (keys_file_of home_dir) keys_content s2 Hk2)
    as [s3 R3].
  rewrite (bind_run _ _ _ _ _ R3).
  apply write_text_ok in R3 as [(m3 & u3 & g3 & Hw3) Hf3].
  destruct (chmod_runs (keys_file_of home_dir) mode_0600 s3) as [s4 R4];
    [by rewrite Hw3|].
  rewrite (bind_run _ _ _ _ _ R4).
  apply chmod_ok in R4 as [(n4 & Hn4 & Hn4') Hf4].
  destruct (chmod_runs (ssh_dir_of home_dir) mode_0700 s4) as [s5 R5];
    [by rewrite Hf4, Hf3 by (by apply not_eq_sym)|].
  rewrite (bind_run _ _ _ _ _ R5).
  apply chmod_ok in R5 as [(n5 & Hn5 & Hn5') Hf5].
  destruct (set_ownership_runs user (keys_file_of home_dir)
              (ssh_dir_of home_dir) s5) as [s6 R6];
    [by rewrite Hf5, Hn4'|by rewrite Hn5'|].
  rewrite (bind_run _ _ _ _ _ R6). unfold lift. eauto.
Qed.

End Permitted.

End Reconciler.

(** * Facts about substrings, stripping and the table filter *)

Module CronFacts.
Import Py PyFacts.

(** *** [startswith] and [contains] *)

Lemma startswith_app p b : startswith p (p +:+ b) = true.
Proof.
  induction p as [|c p IH]; [done|].
  rewrite app_cons. simpl. by rewrite eqc_refl, IH.
Qed.

Lemma startswith_inv p s : startswith p s = true → ∃ b, s = p +:+ b.
Proof.
  revert s. induction p as [|c p IH]; intros s H.
  - by exists s.
  - destruct s as [|d s]; [done|]. simpl in H.
    apply andb_true_iff in H as [->%eqc_true [b ->]%IH]. by exists b.
Qed.

Lemma contains_unfold p s :
  contains p s = startswith p s
                 || match s with "" => false | String _ r => contains p r end.
Proof. by destruct s. Qed.

Lemma contains_intro p a b : contains p (a +:+ p +:+ b) = true.
Proof.
  induction a as [|c a IH].
  - rewrite app_nil_l, contains_unfold, startswith_app. done.
  - rewrite app_cons. simpl. rewrite IH. apply orb_true_r.
Qed.

Lemma contains_inv p s : contains p s = true → ∃ a b, s = a +:+ p +:+ b.
Proof.
  induction s as [|c s IH]; simpl; intros H.
  - rewrite orb_false_r in H. apply startswith_inv in H as [b ->].
    by exists "", b.
  - apply orb_true_iff in H as [[b Hb]%startswith_inv|(a & b & ->)%IH].
    + by exists "", b.
    + by exists (String c a), b.
Qed.

Lemma contains_mono p s a b :
  contains p s = true → contains p (a +:+ s +:+ b) = true.
Proof.
  intros (a' & b' & ->)%contains_inv.
  replace (a +:+ (a' +:+ p +:+ b') +:+ b) with ((a +:+ a') +:+ p +:+ (b' +:+ b))
    by (by rewrite !app_assoc).
  apply contains_intro.
Qed.

Lemma contains_prefix p s b : contains p s = true → contains p (s +:+ b) = true.
Proof. intros H. by apply (contains_mono p s "" b). Qed.

Lemma contains_suffix p s a : contains p s = true → contains p (a +:+ s) = true.
Proof.
  intros H. pose proof (contains_mono p s a "" H) as H'.
  by rewrite app_nil_r in H'.
Qed.

Lemma contains_empty p : p ≠ "" → contains p "" = false.
Proof. by destruct p. Qed.

(** A pattern without the separator cannot straddle it. *)
Lemma startswith_app_sep c p a b :
  has_char c p = false →
  startswith p (a +:+ String c b) = true → startswith p a = true.
Proof.
  revert a. induction p as [|x p IH]; intros a Hp H; [done|].
  simpl in Hp. apply orb_false_iff in Hp as [Hx Hp].
  destruct a as [|y a].
  - rewrite app_nil_l in H. simpl in H. by rewrite Hx in H.
  - rewrite app_cons in H. simpl in *.
    apply andb_true_iff in H as [-> H]. simpl. by apply IH.
Qed.

Lemma contains_app_sep c p a b :
  has_char c p = false →
  contains p (a +:+ String c b) = true →
  contains p a = true ∨ contains p b = true.
Proof.
  intros Hp. induction a as [|y a IH]; intros H.
  - rewrite app_nil_l in H. simpl in H.
    apply orb_true_iff in H as [H|H]; [|by right].
    destruct p as [|x p]; [by left|].
    simpl in Hp, H. apply orb_false_iff in Hp as [Hx _]. by rewrite Hx in H.
  - rewrite app_cons in H. simpl in H.
    apply orb_true_iff in H as [H|H].
    + left. simpl. apply orb_true_iff. left.
      by apply (startswith_app_sep c p (String y a) b).
    + destruct (IH H) as [Ha|Hb]; [left|by right].
      simpl. rewrite Ha. apply orb_true_r.
Qed.

Lemma contains_join c p (items : list string) :
  has_char c p = false → p ≠ "" →
  contains p (join (String c "") items) = true →
  Exists (λ x, contains p x = true) items.
Proof.
  intros Hp Hne. induction items as [|x items IH]; intros H.
  - cbn [join] in H. by rewrite contains_empty in H.
  - destruct items as [|y items]; [by left|].
    rewrite join_cons2 in H.
    change (String c "" +:+ ?t) with (String c t) in H.
    apply (contains_app_sep c) in H as [H|H]; [by left|by right; apply IH|done].
Qed.

Lemma contains_in_join sep p (items : list string) x :
  x ∈ items → contains p x = true → contains p (join sep items) = true.
Proof.
  induction 1 as [x items|x y items Hin IH]; intros H.
  - destruct items as [|z items]; [done|].
    rewrite join_cons2. by apply contains_prefix.
  - destruct items as [|z items]; [by inversion Hin|].
    rewrite join_cons2. apply contains_suffix, contains_suffix. by apply IH.
Qed.

(** *** Stripping *)

Lemma lstrip_suffix f s : ∃ a, s = a +:+ lstrip_by f s.
Proof.
  induction s as [|c s [a IH]]; simpl.
  - by exists "".
  - destruct (f c).
    + exists (String c a). by rewrite app_cons, <-IH.
    + by exists "".
Qed.

Lemma rstrip_prefix f s : ∃ b, s = rstrip_by f s +:+ b.
Proof.
  induction s as [|c s [b IH]]; simpl.
  - by exists "".
  - destruct (rstrip_by f s) as [|d r] eqn:E.
    + destruct (f c).
      * by exists (String c s).
      * exists s. by rewrite app_cons, app_nil_l.
    + exists b. by rewrite app_cons, <-IH.
Qed.

Lemma contains_strip p s : contains p (strip s) = true → contains p s = true.
Proof.
  unfold strip. intros H.
  destruct (lstrip_suffix isspace s) as [a Ha].
  destruct (rstrip_prefix isspace (lstrip_by isspace s)) as [b Hb].
  rewrite Ha, Hb. by apply contains_mono.
Qed.

Lemma lstrip_head f s c r : lstrip_by f s = String c r → f c = false.
Proof.
  induction s as [|d s IH]; simpl; [done|].
  destruct (f d) eqn:E; [done|]. by intros [= <- _].
Qed.

Lemma rstrip_head f s c r :
  rstrip_by f s = String c r → ∃ r', s = String c r'.
Proof.
  destruct s as [|d s]; simpl; [done|].
  destruct (rstrip_by f s); [destruct (f d)|]; intros [= <- _]; eauto.
Qed.

Lemma rstrip_app_drop f u c :
  f c = true → rstrip_by f (u +:+ String c "") = rstrip_by f u.
Proof.
  intros Hc. induction u as [|d u IH].
  - rewrite app_nil_l. simpl. by rewrite Hc.
  - rewrite app_cons. simpl. by rewrite IH.
Qed.

Lemma rstrip_idemp f s : rstrip_by f (rstrip_by f s) = rstrip_by f s.
Proof.
  induction s as [|c s IH]; simpl; [done|].
  destruct (rstrip_by f s) as [|d r] eqn:E.
  - destruct (f c) eqn:Hc; simpl; [done|]. by rewrite Hc.
  - change (rstrip_by f (String c (String d r)))
      with (match rstrip_by f (String d r) with
            | "" => if f c then "" else String c ""
            | String _ _ as r' => String c r'
            end).
    by rewrite IH.
Qed.

Lemma strip_head s c r : strip s = String c r → isspace c = false.
Proof.
  unfold strip. intros [r' H]%rstrip_head. by apply lstrip_head in H.
Qed.

(** Appending a newline to stripped text and stripping again gives
    the stripped text back. *)
Lemma strip_stable s : strip (strip s +:+ String nl "") = strip s.
Proof.
  destruct (strip s) as [|c r] eqn:E; [done|].
  pose proof (strip_head _ _ _ E) as Hc.
  unfold strip at 1. rewrite app_cons. simpl lstrip_by. rewrite Hc.
  rewrite <-app_cons, rstrip_app_drop by done.
  rewrite <-E. unfold strip. apply rstrip_idemp.
Qed.

Lemma filter_all {A} (f : A → bool) (l : list A) :
  Forall (λ x, f x = true) l → List.filter f l = l.
Proof. induction 1 as [|x l Hx _ IH]; simpl; [done|]. by rewrite Hx, IH. Qed.

(** *** Characters of a text *)

Lemma has_char_app c a b : has_char c (a +:+ b) = has_char c a || has_char c b.
Proof.
  induction a as [|d a IH]; [by rewrite app_nil_l|].
  rewrite app_cons. simpl. by rewrite IH, orb_assoc.
Qed.

Lemma has_char_lstrip c f s :
  has_char c s = false → has_char c (lstrip_by f s) = false.
Proof.
  intros H. destruct (lstrip_suffix f s) as [a Ha].
  rewrite Ha, has_char_app in H. by apply orb_false_iff in H as [_ H].
Qed.

Lemma has_char_rstrip c f s :
  has_char c s = false → has_char c (rstrip_by f s) = false.
Proof.
  intros H. destruct (rstrip_prefix f s) as [b Hb].
  rewrite Hb, has_char_app in H. by apply orb_false_iff in H as [H _].
Qed.

Lemma has_char_split c sep s :
  has_char c s = false → Forall (λ l, has_char c l = false) (split sep s).
Proof.
  induction s as [|d s IH]; cbn [split has_char].
  - by constructor.
  - intros [Hd Hs]%orb_false_iff. specialize (IH Hs).
    destruct (eqc d sep).
    + by constructor.
    + destruct (split sep s) as [|l ls]; inversion IH; subst;
        constructor; cbn [has_char]; rewrite ?Hd; auto.
Qed.

Lemma has_char_join c sep (items : list string) :
  has_char c sep = false →
  Forall (λ l, has_char c l = false) items →
  has_char c (join sep items) = false.
Proof.
  intros Hsep. induction 1 as [|x l Hx HF IH]; [done|].
  destruct l as [|y l]; [done|].
  rewrite join_cons2, !has_char_app, Hx, Hsep, IH. done.
Qed.

(** *** The universal-newlines translation *)

Lemma translate_newlines_cr_free t :
  has_char cr t = false → translate_newlines t = t.
Proof.
  induction t as [|c t IH]; [done|]. cbn [has_char translate_newlines].
  intros [-> Ht]%orb_false_iff. by rewrite IH.
Qed.

Lemma translate_newlines_lf t :
  translate_newlines (String nl t) = String nl (translate_newlines t).
Proof. reflexivity. Qed.

(** The translated text has no carriage return left. *)
Lemma translate_newlines_no_cr t : has_char cr (translate_newlines t) = false.
Proof.
  induction t as [|c t IH]; [done|]. cbn [translate_newlines].
  destruct (eqc c cr) eqn:Ec.
  - cbn [has_char]. change (eqc nl cr) with false. cbn [orb].
    destruct t as [|d t]; [done|].
    destruct (eqc d nl) eqn:Ed; [|done].
    apply eqc_true in Ed as ->. by rewrite translate_newlines_lf in IH.
  - cbn [has_char]. by rewrite Ec, IH.
Qed.

Lemma translate_newlines_idemp t :
  translate_newlines (translate_newlines t) = translate_newlines t.
Proof. apply translate_newlines_cr_free, translate_newlines_no_cr. Qed.

(** On one line, the translation turns every carriage return into a
    line break. *)
Lemma split_translated_line x :
  has_char nl x = false → split nl (translate_newlines x) = split cr x.
Proof.
  induction x as [|c x IH]; [done|]. cbn [has_char].
  intros [Hc Hx]%orb_false_iff. specialize (IH Hx).
  cbn [translate_newlines]. destruct (eqc c cr) eqn:Ec.
  - cbn [split]. rewrite eqc_refl, Ec.
    destruct x as [|d x]; [done|].
    cbn [has_char] in Hx. apply orb_false_iff in Hx as [-> _]. by rewrite IH.
  - cbn [split]. by rewrite Hc, Ec, IH.
Qed.

(** The translation of a text that goes on after a line break: the
    line before the break loses at most one final carriage return. *)
Lemma translate_newlines_line l b :
  has_char nl l = false →
  ∃ l', translate_newlines (l +:+ String nl b)
        = translate_newlines l' +:+ String nl (translate_newlines b)
        ∧ (l = l' ∨ l = l' +:+ String cr "").
Proof.
  induction l as [|c l IH].
  - intros _. exists "". rewrite !app_nil_l. by split; [|left].
  - cbn [has_char]. intros [Hc Hl]%orb_false_iff.
    destruct (IH Hl) as (l' & Heq & Hl'). rewrite app_cons.
    cbn [translate_newlines]. destruct (eqc c cr) eqn:Ec.
    + apply eqc_true in Ec as ->. destruct l as [|d l].
      * exists "". rewrite !app_nil_l, eqc_refl. by split; [|right].
      * rewrite app_cons in *. cbn [has_char] in Hl.
        apply orb_false_iff in Hl as [Hd _]. rewrite Hd, Heq.
        exists (String cr l'). split.
        -- cbn [translate_newlines]. rewrite eqc_refl, app_cons.
           destruct l' as [|d' l'']; [done|].
           assert (d' = d) as ->.
           { destruct Hl' as [Hl'|Hl']; rewrite ?app_cons in Hl';
               by injection Hl'. }
           by rewrite Hd.
        -- destruct Hl' as [<- | ->]; [by left|right]. by rewrite !app_cons.
    + exists (String c l'). split.
      * cbn [translate_newlines]. by rewrite Ec, Heq, app_cons.
      * destruct Hl' as [<- | ->]; [by left|right]. by rewrite !app_cons.
Qed.

(** *** Lines *)

Lemma lines_ind (P : string → Prop) :
  (∀ l, has_char nl l = false → P l) →
  (∀ l b, has_char nl l = false → P b → P (l +:+ String nl b)) →
  ∀ t, P t.
Proof.
  intros H1 H2.
  enough (∀ t l, has_char nl l = false → P (l +:+ t)) as H
    by (intros t; by apply (H t "")).
  induction t as [|c t IH]; intros l Hl.
  - rewrite app_nil_r. by apply H1.
  - destruct (eqc c nl) eqn:Ec.
    + apply eqc_true in Ec as ->. apply H2; [done|]. by apply (IH "").
    + replace (l +:+ String c t) with ((l +:+ String c "") +:+ t)
        by (by rewrite app_assoc).
      apply IH. rewrite has_char_app, Hl. cbn [has_char]. by rewrite Ec.
Qed.

Lemma in_join_sub sep (items : list string) x :
  x ∈ items → ∃ a b, join sep items = a +:+ x +:+ b.
Proof.
  induction 1 as [x items|x y items Hin (a & b & IH)].
  - destruct items as [|z items].
    + exists "", "". by rewrite app_nil_l, app_nil_r.
    + exists "", (sep +:+ join sep (z :: items)).
      by rewrite join_cons2, app_nil_l.
  - destruct items as [|z items]; [by inversion Hin|].
    exists (y +:+ sep +:+ a), b. by rewrite join_cons2, IH, !app_assoc.
Qed.

Lemma in_split_sub sep s x : x ∈ split sep s → ∃ a b, s = a +:+ x +:+ b.
Proof.
  intros (a & b & H)%(in_join_sub (String sep "")).
  rewrite join_split in H. eauto.
Qed.

(** *** Text that is not white space only *)

Lemma truthy_lstrip_cons f c s :
  truthy (lstrip_by f (String c s))
  = if f c then truthy (lstrip_by f s) else true.
Proof. cbn [lstrip_by]. by destruct (f c). Qed.

Lemma truthy_lstrip_app f a b :
  truthy (lstrip_by f (a +:+ b))
  = truthy (lstrip_by f a) || truthy (lstrip_by f b).
Proof.
  induction a as [|c a IH]; [by rewrite app_nil_l|].
  rewrite app_cons, !truthy_lstrip_cons, IH. by destruct (f c).
Qed.

Lemma truthy_rstrip f s : truthy (rstrip_by f s) = truthy (lstrip_by f s).
Proof.
  induction s as [|c s IH]; [done|].
  rewrite truthy_lstrip_cons, <-IH. cbn [rstrip_by].
  destruct (rstrip_by f s); by destruct (f c).
Qed.

Lemma lstrip_idemp f s : lstrip_by f (lstrip_by f s) = lstrip_by f s.
Proof.
  induction s as [|c s IH]; [done|]. cbn [lstrip_by].
  destruct (f c) eqn:E; [done|]. cbn [lstrip_by]. by rewrite E.
Qed.

Lemma truthy_strip s : truthy (strip s) = truthy (lstrip_by isspace s).
Proof. unfold strip. by rewrite truthy_rstrip, lstrip_idemp. Qed.

Lemma truthy_lstrip_join f sep (items : list string) :
  truthy (lstrip_by f sep) = false →
  truthy (lstrip_by f (join sep items))
  = existsb (λ x, truthy (lstrip_by f x)) items.
Proof.
  intros Hsep. induction items as [|x items IH]; [done|].
  destruct items as [|y items].
  - cbn [join existsb]. by rewrite orb_false_r.
  - rewrite join_cons2, !truthy_lstrip_app, Hsep, IH. done.
Qed.

Lemma existsb_filter {A} (f g : A → bool) (l : list A) :
  existsb g (List.filter f l) = existsb (λ x, f x && g x) l.
Proof.
  induction l as [|x l IH]; [done|]. cbn [List.filter existsb].
  destruct (f x); cbn [existsb andb orb]; by rewrite IH.
Qed.

(** *** Kept lines that are not blank, before and after the translation *)

Section Lines.

Variable keep : string → bool.
Hypothesis keep_sub : ∀ a x b, keep (a +:+ x +:+ b) = true → keep x = true.

Lemma inked_single x :
  has_char nl x = false →
  keep x && truthy (lstrip_by isspace x) = true →
  existsb (λ y, keep y && truthy (lstrip_by isspace y))
    (split nl (translate_newlines x)) = true.
Proof.
  intros Hx [Hk Hi]%andb_true_iff.
  rewrite split_translated_line by done.
  rewrite <-(join_split cr x) in Hi.
  rewrite truthy_lstrip_join in Hi by done.
  apply existsb_exists in Hi as (y & Hy & Hiy).
  apply existsb_exists. exists y. split; [done|].
  rewrite Hiy, andb_true_r.
  apply list_elem_of_In, in_split_sub in Hy as (a & b & Hy).
  rewrite Hy in Hk. by apply keep_sub in Hk.
Qed.

Lemma inked_translated t :
  existsb (λ x, keep x && truthy (lstrip_by isspace x)) (split nl t) = true →
  existsb (λ x, keep x && truthy (lstrip_by isspace x))
    (split nl (translate_newlines t)) = true.
Proof.
  induction t as [l Hl|l b Hl IH] using lines_ind.
  - rewrite split_no_sep by done. cbn [existsb]. rewrite orb_false_r.
    by apply inked_single.
  - rewrite split_app_sep, split_no_sep by done.
    cbn [List.app existsb].
    destruct (translate_newlines_line l b Hl) as (l' & -> & Hl').
    rewrite split_app_sep, existsb_app.
    intros [H|H]%orb_true_iff; apply orb_true_iff; [left|right; by apply IH].
    apply inked_single.
    + destruct Hl' as [<- | ->]; [done|].
      rewrite has_char_app in Hl. by apply orb_false_iff in Hl as [Hl _].
    + destruct Hl' as [<- | ->]; [done|].
      apply andb_true_iff in H as [Hk Hi].
      rewrite <-(app_nil_l (l' +:+ String cr "")) in Hk.
      apply keep_sub in Hk. rewrite Hk.
      rewrite truthy_lstrip_app in Hi.
      apply orb_true_iff in Hi as [->|Hi]; [done|done].
Qed.

End Lines.

End CronFacts.

(** * The scheduler registrar *)

Section Registrar.

Variable h : host.

Import Py PyFacts CronFacts.

Lemma keep_line_false_iff line :
  keep_line line = false ↔
  contains CRON_COMMENT line = true ∨ contains SCRIPT_NAME line = true.
Proof.
  unfold keep_line.
  destruct (contains CRON_COMMENT line), (contains SCRIPT_NAME line);
    simpl; intuition congruence.
Qed.

(** Neither pattern of the filter can be assembled from pieces of
    lines that the filter kept. *)
Lemma pattern_not_in_filtered p t :
  p = CRON_COMMENT ∨ p = SCRIPT_NAME →
  contains p (filtered_crontab t) = false.
Proof.
  intros Hp. destruct (contains p (filtered_crontab t)) eqn:E; [|done].
  exfalso. unfold filtered_crontab in E. apply contains_strip in E.
  apply (contains_join nl) in E; [|by destruct Hp as [-> | ->]..].
  apply Exists_exists in E as (x & Hin & Hx).
  apply list_elem_of_In, filter_In in Hin as [_ Hkeep].
  assert (keep_line x = false) as Hk
    by (apply keep_line_false_iff; destruct Hp as [-> | ->]; auto).
  congruence.
Qed.

(** Every line of the filtered table passes the filter again. *)
Lemma filtered_lines_kept t :
  Forall (λ l, keep_line l = true) (split nl (filtered_crontab t)).
Proof.
  apply Forall_forall. intros l Hl.
  destruct (keep_line l) eqn:E; [done|]. exfalso.
  apply keep_line_false_iff in E.
  assert (∀ p, contains p l = true → contains p (filtered_crontab t) = true)
    as Hup.
  { intros p Hp. rewrite <-(join_split nl (filtered_crontab t)).
    by apply (contains_in_join _ _ _ l). }
  destruct E as [E|E]; apply Hup in E;
    rewrite pattern_not_in_filtered in E; auto; done.
Qed.

(** A table without lines of this tool is only stripped. *)
Lemma filtered_clean t :
  tool_lines t = [] → filtered_crontab t = strip t.
Proof.
  unfold tool_lines, filtered_crontab. intros H.
  rewrite filter_all, join_split; [done|].
  apply Forall_forall. intros l Hl.
  destruct (keep_line l) eqn:E; [done|].
  assert (l ∈ List.filter (λ line, negb (keep_line line)) (split nl t)) as Hin.
  { apply list_elem_of_In, filter_In. split; [by apply list_elem_of_In|].
    by rewrite E. }
  rewrite H in Hin. by apply elem_of_nil in Hin.
Qed.

(** The lines of the table that [install_cron] writes. *)
Lemma split_new_crontab entry t :
  has_char nl entry = false →
  split nl (new_crontab_of entry t)
  = (if truthy (filtered_crontab t) then split nl (filtered_crontab t) else [])
      ++ [CRON_COMMENT; entry; ""].
Proof.
  intros He. unfold new_crontab_of.
  assert (split nl (CRON_COMMENT +:+ String nl (entry +:+ String nl ""))
          = [CRON_COMMENT; entry; ""]) as Htail.
  { rewrite !split_app_sep, (split_no_sep nl entry He). done. }
  destruct (filtered_crontab t) as [|c r]; cbn [truthy].
  - by rewrite app_nil_l, !app_assoc, !app_single, Htail.
  - by rewrite !app_assoc, !app_single, split_app_sep, Htail.
Qed.

Lemma filter_none {A} (f : A → bool) (l : list A) :
  Forall (λ x, f x = false) l → List.filter f l = [].
Proof. induction 1 as [|x l Hx _ IH]; simpl; [done|]. by rewrite Hx, IH. Qed.

Lemma kept_prefix t :
  Forall (λ l, keep_line l = true)
    (if truthy (filtered_crontab t) then split nl (filtered_crontab t) else []).
Proof. destruct (truthy _); [apply filtered_lines_kept|constructor]. Qed.

(** Filtering the table that [install_cron] wrote gives back what the
    filter had left of the table before. *)
Lemma filtered_new_crontab entry t :
  has_char nl entry = false → keep_line entry = false →
  filtered_crontab (new_crontab_of entry t) = filtered_crontab t.
Proof.
  intros He Hk. unfold filtered_crontab at 1.
  rewrite split_new_crontab, List.filter_app, (filter_all _ _ (kept_prefix t)) by done.
  cbn [List.filter]. rewrite Hk.
  change (keep_line CRON_COMMENT) with false.
  change (keep_line "") with true. cbn iota.
  destruct (filtered_crontab t) as [|c r] eqn:E; cbn [truthy].
  - reflexivity.
  - rewrite join_snoc by apply split_not_nil.
    rewrite join_split, app_nil_r, <-E.
    unfold filtered_crontab. apply strip_stable.
Qed.

Lemma new_crontab_idemp entry t :
  has_char nl entry = false → keep_line entry = false →
  new_crontab_of entry (new_crontab_of entry t) = new_crontab_of entry t.
Proof.
  intros He Hk. unfold new_crontab_of at 1.
  by rewrite filtered_new_crontab.
Qed.

Lemma tool_lines_new_crontab entry t :
  has_char nl entry = false → keep_line entry = false →
  tool_lines (new_crontab_of entry t) = [CRON_COMMENT; entry].
Proof.
  intros He Hk. unfold tool_lines.
  rewrite split_new_crontab, List.filter_app by done.
  rewrite filter_none.
  - cbn [List.filter app]. rewrite Hk.
    change (keep_line CRON_COMMENT) with false.
    by change (keep_line "") with true.
  - eapply Forall_impl; [apply kept_prefix|].
    intros l Hl. simpl in Hl. by rewrite Hl.
Qed.

Lemma tool_entries_new_crontab entry t :
  has_char nl entry = false → contains SCRIPT_NAME entry = true →
  tool_entries (new_crontab_of entry t) = [entry].
Proof.
  intros He Hc. unfold tool_entries.
  rewrite split_new_crontab, List.filter_app by done.
  rewrite filter_none.
  - cbn [List.filter app]. rewrite Hc.
    change (contains SCRIPT_NAME CRON_COMMENT) with false.
    by change (contains SCRIPT_NAME "") with false.
  - eapply Forall_impl; [apply kept_prefix|].
    intros l Hl. simpl in Hl. unfold keep_line in Hl.
    apply andb_true_iff in Hl as [_ Hl]. by apply negb_true_iff in Hl.
Qed.

(** The entry names the script by its path. *)
(** *** The table as it is read *)

Lemma keep_line_sub a x b : keep_line (a +:+ x +:+ b) = true → keep_line x = true.
Proof.
  unfold keep_line. intros [H1 H2]%andb_true_iff.
  apply negb_true_iff in H1, H2. apply andb_true_iff. split.
  - destruct (contains CRON_COMMENT x) eqn:E; [|done].
    by rewrite (contains_mono _ _ a b E) in H1.
  - destruct (contains SCRIPT_NAME x) eqn:E; [|done].
    by rewrite (contains_mono _ _ a b E) in H2.
Qed.

(** Something is left after filtering exactly when a kept line has
    a character that is not white space. *)
Lemma filtered_truthy t :
  truthy (filtered_crontab t)
  = existsb (λ x, keep_line x && truthy (lstrip_by isspace x)) (split nl t).
Proof.
  unfold filtered_crontab.
  by rewrite truthy_strip, truthy_lstrip_join, existsb_filter.
Qed.

(** What filtering keeps of a table, it keeps of the table read in
    text mode. *)
Lemma filtered_translated t :
  truthy (filtered_crontab t) = true →
  truthy (filtered_crontab (translate_newlines t)) = true.
Proof.
  rewrite !filtered_truthy. apply inked_translated, keep_line_sub.
Qed.

Lemma filtered_no_cr t :
  has_char cr t = false → has_char cr (filtered_crontab t) = false.
Proof.
  intros H. unfold filtered_crontab, strip.
  apply has_char_rstrip, has_char_lstrip, has_char_join; [done|].
  apply Forall_forall. intros x Hx%list_elem_of_In.
  apply filter_In in Hx as [Hx _].
  pose proof (has_char_split cr nl t H) as HF.
  rewrite Forall_forall in HF. by apply HF, list_elem_of_In.
Qed.

Lemma new_crontab_no_cr entry t :
  has_char cr entry = false → has_char cr t = false →
  has_char cr (new_crontab_of entry t) = false.
Proof.
  intros He Ht. unfold new_crontab_of.
  rewrite !has_char_app, He.
  destruct (truthy (filtered_crontab t));
    rewrite ?has_char_app, (filtered_no_cr t Ht); done.
Qed.

(** A table built by [install_cron] from a text without carriage
    return is read back as it was written. *)
Lemma new_crontab_read_back entry t :
  has_char cr entry = false →
  translate_newlines (new_crontab_of entry (translate_newlines t))
  = new_crontab_of entry (translate_newlines t).
Proof.
  intros He. apply translate_newlines_cr_free, new_crontab_no_cr; [done|].
  apply translate_newlines_no_cr.
Qed.

Lemma cron_entry_names_script server_url admin_key group_name users :
  contains SCRIPT_NAME (script_path h) = true →
  contains SCRIPT_NAME (cron_entry h server_url admin_key group_name users)
  = true.
Proof.
  intros H. unfold cron_entry, cron_cmd, get_script_path.
  rewrite !app_assoc.
  apply contains_suffix, contains_suffix, contains_suffix.
  by apply contains_prefix.
Qed.

End Registrar.

(** * The claims *)

Lemma update_ok_home h user keys_content s s' :
  update_authorized_keys h user keys_content s = (s', true) →
  ∃ home_dir, home_of h user s = Some home_dir
              ∧ install_keys h user home_dir keys_content s = (s', inr tt).
Proof.
  intros (home_dir & Hres & Hok)%update_ok_inv.
  exists home_dir. unfold home_of. by rewrite Hres.
Qed.

Lemma resolve_home_some h user s home_dir :
  home_of h user s = Some home_dir →
  resolve_home h user s = (s, Some home_dir).
Proof.
  unfold home_of, resolve_home.
  repeat case_match; simpl; intros; by simplify_eq.
Qed.

(** With every access granted, the directory part of the [.ssh]
    path an existing directory and no node of the wrong kind in the
    way, the reconciliation of an account with a home directory
    succeeds. *)
Lemma reconcile_succeeds h user keys_content s home_dir :
  (∀ p, writable h p = true) →
  home_of h user s = Some home_dir →
  (Py.truthy (Py.path_split (ssh_dir_of home_dir)).1 = true →
   dir_exists (Py.path_split (ssh_dir_of home_dir)).1 s = true) →
  (∀ c m u g, fs s !! ssh_dir_of home_dir ≠ Some (File c m u g)) →
  is_dir (fs s !! keys_file_of home_dir) = false →
  is_dir (fs s !! backup_file_of home_dir) = false →
  snd (update_authorized_keys h user keys_content s) = true.
Proof.
  intros Hw Hhome%resolve_home_some Hpar Hssh Hkeys Hbak.
  unfold update_authorized_keys. rewrite Hhome.
  destruct (install_keys_runs h Hw user home_dir keys_content s
              Hpar Hssh Hkeys Hbak) as [s' ->]. done.
Qed.

(** C2. After a successful reconciliation of an account, reading its
    authorized_keys file back yields exactly the payload: the former
    content is replaced, not appended to. *)
Theorem reconcile_writes_payload h user keys_content s s' :
  update_authorized_keys h user keys_content s = (s', true) →
  ∃ home_dir, home_of h user s = Some home_dir
              ∧ read_file (fs s') (keys_file_of home_dir) = Some keys_content.
Proof.
  intros (home_dir & Hhome & Hok)%update_ok_home.
  exists home_dir. split; [done|].
  by destruct (install_keys_post h _ _ _ _ _ Hok) as (? & _).
Qed.

Lemma reconcile_writes_payload_witness :
  ∃ home_dir,
    home_of ok_host "root" demo_state = Some home_dir
    ∧ read_file
        (fs (fst (update_authorized_keys ok_host "root" demo_payload demo_state)))
        (keys_file_of home_dir) = Some demo_payload.
Proof.
  apply (reconcile_writes_payload ok_host "root" demo_payload demo_state).
  vm_compute. reflexivity.
Defined.

(** C3. When the account's authorized_keys file held X before the
    reconciliation, the backup file holds exactly X after a successful
    one, whatever the payload and whatever an earlier backup held.  The
    backup path is a regular file or absent ([shutil.copy2] would place
    the copy inside a directory of that name). *)
Theorem backup_holds_previous h user keys_content s s' home_dir X :
  home_of h user s = Some home_dir →
  read_file (fs s) (keys_file_of home_dir) = Some X →
  is_dir (fs s !! backup_file_of home_dir) = false →
  update_authorized_keys h user keys_content s = (s', true) →
  read_file (fs s') (backup_file_of home_dir) = Some X.
Proof.
  intros Hhome HX Hnd (home' & Hhome' & Hok)%update_ok_home.
  assert (home' = home_dir) as -> by congruence.
  destruct (install_keys_post h _ _ _ _ _ Hok) as (_ & _ & _ & _ & Hbak & _).
  by apply Hbak.
Qed.

Lemma backup_holds_previous_witness :
  read_file
    (fs (fst (update_authorized_keys ok_host "root" demo_payload demo_state)))
    (backup_file_of "/root") = Some "old-key".
Proof.
  apply (backup_holds_previous ok_host "root" demo_payload demo_state _ "/root");
    vm_compute; reflexivity.
Defined.

(** C4. After a successful reconciliation the [.ssh] directory has
    mode 0700 and the authorized_keys file mode 0600, whatever modes
    they had before. *)
Theorem reconcile_sets_modes h user keys_content s s' :
  update_authorized_keys h user keys_content s = (s', true) →
  ∃ home_dir, home_of h user s = Some home_dir
    ∧ is_dir (fs s' !! ssh_dir_of home_dir) = true
    ∧ mode_at (fs s') (ssh_dir_of home_dir) = Some mode_0700
    ∧ mode_at (fs s') (keys_file_of home_dir) = Some mode_0600.
Proof.
  intros (home_dir & Hhome & Hok)%update_ok_home.
  exists home_dir. split; [done|].
  by destruct (install_keys_post h _ _ _ _ _ Hok) as (_ & ? & ? & ? & _).
Qed.

Lemma reconcile_sets_modes_witness :
  ∃ home_dir,
    home_of ok_host "root" demo_state = Some home_dir
    ∧ is_dir (fs (fst (update_authorized_keys ok_host "root" demo_payload
                          demo_state)) !! ssh_dir_of home_dir) = true
    ∧ mode_at (fs (fst (update_authorized_keys ok_host "root" demo_payload
                          demo_state))) (ssh_dir_of home_dir) = Some mode_0700
    ∧ mode_at (fs (fst (update_authorized_keys ok_host "root" demo_payload
                          demo_state))) (keys_file_of home_dir) = Some mode_0600.
Proof.
  apply (reconcile_sets_modes ok_host "root" demo_payload demo_state).
  vm_compute. reflexivity.
Defined.



Lemma install_cron_ok_inv h server_url admin_key group_name users s s1 :
  install_cron h server_url admin_key group_name users s = (s1, Returned tt) →
  let entry := cron_entry h server_url admin_key group_name users in
  let table := new_crontab_of entry (Py.translate_newlines (table_of s)) in
  euid h = 0 ∧ crontab_present h = true ∧ crontab_accepts h table = true
  ∧ s1 = emit INFO ("Cron entry: " +:+ entry)
           (emit INFO "Cron job installed successfully"
              (set_crontab (Some table) s)).
Proof.
  unfold install_cron, crontab_write, crontab_l, table_of. intros H.
  destruct (euid h =? 0) eqn:He; simpl in H; [|done].
  destruct (crontab_present h); simpl in H; [|done].
  apply Z.eqb_eq in He.
  destruct (crontab s) as [t|]; [|destruct (crontab_decode_error s)];
    try done;
    (destruct (crontab_accepts h _) eqn:Ha; [|done]; by simplify_eq).
Qed.

(** C1. [install_cron] means to remove the entries of earlier
    installs before it adds its own (line 204), but it recognises them
    by the fixed name [update-authorized-keys.py] only, and line by
    line.  Run under another file name, the script does not recognise
    the entry of the first [install], so the second one adds a
    duplicate.  With a line feed or a carriage return in an argument
    the entry is read back as two lines of which only the first is
    recognised, so the table grows with every [install]. *)
Lemma install_twice_duplicates :
  (let run := install_cron renamed_host "http://server:3000" "adminkey"
                "Developers" ["root"] in
   let entry := cron_entry renamed_host "http://server:3000" "adminkey"
                  "Developers" ["root"] in
   let s1 := fst (run fresh_state) in
   let s2 := fst (run s1) in
   snd (run fresh_state) = Returned tt ∧ snd (run s1) = Returned tt
   ∧ length (occurrences entry (table_of s1)) = 1%nat
   ∧ length (occurrences entry (table_of s2)) = 2%nat
   ∧ tool_entries (table_of s2) = [])
  ∧ (let key := "admin" +:+ String Py.nl "key" in
     let run := install_cron ok_host "http://server:3000" key
                  "Developers" ["root"] in
     let s1 := fst (run fresh_state) in
     let s2 := fst (run s1) in
     snd (run fresh_state) = Returned tt ∧ snd (run s1) = Returned tt
     ∧ length (Py.split Py.nl (table_of s1)) = 4%nat
     ∧ length (Py.split Py.nl (table_of s2)) = 5%nat
     ∧ crontab s2 ≠ crontab s1)
  ∧ (let key := "admin" +:+ String Py.cr "key" in
     let run := install_cron ok_host "http://server:3000" key
                  "Developers" ["root"] in
     let s1 := fst (run fresh_state) in
     let s2 := fst (run s1) in
     snd (run fresh_state) = Returned tt ∧ snd (run s1) = Returned tt
     ∧ length (Py.split Py.nl (table_of s1)) = 3%nat
     ∧ length (Py.split Py.nl (table_of s2)) = 4%nat
     ∧ crontab s2 ≠ crontab s1).
Proof.
  split_and!; vm_compute; repeat split; discriminate.
Qed.

(** C3 as stated fails when the backup path is a directory: the
    reconciliation succeeds, [shutil.copy2] puts the copy inside that
    directory, and no file at the backup path holds the old content. *)
Lemma backup_path_directory :
  let r := update_authorized_keys ok_host "root" demo_payload backup_dir_state in
  home_of ok_host "root" backup_dir_state = Some "/root"
  ∧ read_file (fs backup_dir_state) (keys_file_of "/root") = Some "old-key"
  ∧ snd r = true
  ∧ read_file (fs (fst r)) (backup_file_of "/root") = None
  ∧ read_file (fs (fst r)) "/root/.ssh/authorized_keys.backup/authorized_keys"
    = Some "old-key".
Proof. vm_compute. repeat split. Qed.

(** ** The orchestrator and the key source client *)

Lemma fetch_frame h server_url admin_key group_name s :
  let s' := fst (fetch_authorized_keys h server_url admin_key group_name s) in
  fs s' = fs s ∧ crontab s' = crontab s.
Proof.
  unfold fetch_authorized_keys.
  repeat case_match; simpl; done.
Qed.

(** C5. In a run that is not an uninstall, a failed fetch ends the
    run with exit status 1 right after the fetch: the only effect is
    one more log record, and neither a file node nor the cron table has
    changed. *)
Theorem fetch_failure_aborts h a s :
  arg_uninstall a = false →
  snd (fetch_authorized_keys h (arg_server a) (arg_key a) (arg_group a) s)
  = None →
  ∃ s', main h a s = (s', SysExit 1)
        ∧ s' = emit ERROR "Failed to fetch authorized_keys from server"
                 (fst (fetch_authorized_keys h (arg_server a) (arg_key a)
                         (arg_group a) s))
        ∧ fs s' = fs s ∧ crontab s' = crontab s.
Proof.
  intros Hu Hf. unfold main. rewrite Hu.
  pose proof (fetch_frame h (arg_server a) (arg_key a) (arg_group a) s)
    as [Hfs Hct].
  destruct (fetch_authorized_keys h _ _ _ s) as [s0 [k|]]; [done|].
  simpl in *. eauto.
Qed.

Lemma fetch_failure_aborts_witness :
  ∃ s', main not_found_host ghosts_args demo_state = (s', SysExit 1)
        ∧ s' = emit ERROR "Failed to fetch authorized_keys from server"
                 (fst (fetch_authorized_keys not_found_host
                         (arg_server ghosts_args) (arg_key ghosts_args)
                         (arg_group ghosts_args) demo_state))
        ∧ fs s' = fs demo_state ∧ crontab s' = crontab demo_state.
Proof.
  apply (fetch_failure_aborts not_found_host ghosts_args demo_state);
    vm_compute; reflexivity.
Defined.

Example ghosts_run_log :
  log (fst (main not_found_host ghosts_args demo_state))
  = [(INFO, "Fetching authorized_keys from http://server:3000/api/authorized-keys/group/Ghosts?key=adminkey");
     (ERROR, "Group 'Ghosts' not found on server");
     (ERROR, "Failed to fetch authorized_keys from server")].
Proof. vm_compute. reflexivity. Qed.

(** C8 as stated fails: whatever made the fetch fail, the caller
    gets the same value [None]. *)
Lemma fetch_failures_indistinguishable :
  let fetch h := snd (fetch_authorized_keys h "http://server:3000" "adminkey"
                        "Developers" demo_state) in
  fetch not_found_host = None
  ∧ fetch unauthorized_host = fetch not_found_host
  ∧ fetch broken_host = fetch not_found_host
  ∧ fetch unreachable_host = fetch not_found_host.
Proof. vm_compute. repeat split. Qed.

(** C8 (as amended). Every failed fetch returns [None]; the cause
    shows only in the ERROR record that the fetch logs last: one text
    for status 404, one for 401, one carrying the code for any other
    error status, one for a transport failure. *)
Theorem fetch_failure_logged h server_url admin_key group_name s :
  let url := fetch_url server_url admin_key group_name in
  let s0 := emit INFO ("Fetching authorized_keys from " +:+ url) s in
  let result := fetch_authorized_keys h server_url admin_key group_name s in
  (∀ reason, urlopen h url admin_key = HTTPError 404 reason →
     result = (emit ERROR ("Group '" +:+ group_name
                           +:+ "' not found on server") s0, None))
  ∧ (∀ reason, urlopen h url admin_key = HTTPError 401 reason →
       result = (emit ERROR "Authentication failed - check admin key" s0, None))
  ∧ (∀ code reason, code ≠ 404 → code ≠ 401 →
       urlopen h url admin_key = HTTPError code reason →
       result = (emit ERROR ("HTTP error " +:+ Py.str_Z code +:+ ": "
                             +:+ reason) s0, None))
  ∧ (∀ reason, urlopen h url admin_key = URLError reason →
       result = (emit ERROR ("Network error: " +:+ reason) s0, None))
  ∧ (snd result = None ↔
     ∀ content, urlopen h url admin_key ≠ Response 200 (inl content)).
Proof.
  intros url s0 result. unfold result, fetch_authorized_keys.
  fold url. fold s0. split_and!.
  - by intros reason ->.
  - by intros reason ->.
  - intros code reason H4 H1 ->.
    apply Z.eqb_neq in H4, H1. by rewrite H4, H1.
  - by intros reason ->.
  - destruct (urlopen h url admin_key) as [status [c|m]|code r|r|m]; simpl.
    + destruct (status =? 200) eqn:E; simpl.
      * apply Z.eqb_eq in E as ->. split; [done|]. intros H. by destruct (H c).
      * apply Z.eqb_neq in E. split; [|done]. intros _ c' [=]. done.
    + destruct (status =? 200); simpl; split; done.
    + repeat case_match; simpl; split; done.
    + split; done.
    + split; done.
Qed.

Lemma fetch_failure_logged_witness :
  fetch_authorized_keys not_found_host "http://server:3000" "adminkey"
    "Ghosts" fresh_state
  = (emit ERROR "Group 'Ghosts' not found on server"
       (emit INFO "Fetching authorized_keys from http://server:3000/api/authorized-keys/group/Ghosts?key=adminkey"
          fresh_state), None)
  ∧ fetch_authorized_keys broken_host "http://server:3000" "adminkey"
      "Ghosts" fresh_state
    = (emit ERROR "HTTP error 500: Internal Server Error"
         (emit INFO "Fetching authorized_keys from http://server:3000/api/authorized-keys/group/Ghosts?key=adminkey"
            fresh_state), None).
Proof.
  destruct (fetch_failure_logged not_found_host "http://server:3000"
              "adminkey" "Ghosts" fresh_state) as (H404 & _).
  destruct (fetch_failure_logged broken_host "http://server:3000"
              "adminkey" "Ghosts" fresh_state) as (_ & _ & H500 & _).
  split.
  - apply (H404 "Not Found"). reflexivity.
  - apply (H500 500 "Internal Server Error"); [lia|lia|reflexivity].
Defined.

(** ** Home directories and the loop over the accounts *)

Lemma update_unknown_user h user keys_content db s :
  user ≠ "root" → pwd_db h = Some db → db !! user = None →
  update_authorized_keys h user keys_content s
  = (emit ERROR ("User '" +:+ user +:+ "' not found") s, false).
Proof.
  intros Hr Hdb Hu. unfold update_authorized_keys, resolve_home.
  apply String.eqb_neq in Hr. by rewrite Hr, Hdb, Hu.
Qed.

(** C7. Home-directory resolution: [root] is [/root]; any other
    account is looked up in the user database, and an account it does
    not know makes the reconciliation fail with the "not found" report;
    without a user database the reconciler falls back to
    [/home/<account>] and fails with the "home directory not found"
    report exactly when that path does not exist.  A failed resolution
    changes nothing but the log. *)
Theorem home_resolution h user keys_content s :
  (user = "root" → resolve_home h user s = (s, Some "/root"))
  ∧ (∀ db ent, user ≠ "root" → pwd_db h = Some db → db !! user = Some ent →
       resolve_home h user s = (s, Some (pw_dir ent)))
  ∧ (∀ db, user ≠ "root" → pwd_db h = Some db → db !! user = None →
       resolve_home h user s
       = (emit ERROR ("User '" +:+ user +:+ "' not found") s, None)
       ∧ update_authorized_keys h user keys_content s
         = (emit ERROR ("User '" +:+ user +:+ "' not found") s, false))
  ∧ (user ≠ "root" → pwd_db h = None →
       path_exists ("/home/" +:+ user) s = true →
       resolve_home h user s = (s, Some ("/home/" +:+ user)))
  ∧ (user ≠ "root" → pwd_db h = None →
       path_exists ("/home/" +:+ user) s = false →
       resolve_home h user s
       = (emit ERROR ("Home directory for user '" +:+ user +:+ "' not found") s,
          None)
       ∧ update_authorized_keys h user keys_content s
         = (emit ERROR ("Home directory for user '" +:+ user
                        +:+ "' not found") s, false)).
Proof.
  unfold update_authorized_keys, resolve_home. split_and!.
  - by intros ->.
  - intros db ent Hr%String.eqb_neq Hdb Hu. by rewrite Hr, Hdb, Hu.
  - intros db Hr%String.eqb_neq Hdb Hu. by rewrite Hr, Hdb, Hu.
  - intros Hr%String.eqb_neq Hdb Hex. by rewrite Hr, Hdb, Hex.
  - intros Hr%String.eqb_neq Hdb Hex. by rewrite Hr, Hdb, Hex.
Qed.

Lemma home_resolution_witness :
  resolve_home ok_host "root" fresh_state = (fresh_state, Some "/root")
  ∧ resolve_home ok_host "deploy" fresh_state
    = (fresh_state, Some "/home/deploy")
  ∧ update_authorized_keys ok_host "ghost" demo_payload fresh_state
    = (emit ERROR "User 'ghost' not found" fresh_state, false)
  ∧ resolve_home no_pwd_host "deploy" home_deploy_state
    = (home_deploy_state, Some "/home/deploy")
  ∧ update_authorized_keys no_pwd_host "deploy" demo_payload fresh_state
    = (emit ERROR "Home directory for user 'deploy' not found" fresh_state,
       false).
Proof.
  split_and!.
  - by apply (home_resolution ok_host "root" demo_payload fresh_state).
  - destruct (home_resolution ok_host "deploy" demo_payload fresh_state)
      as (_ & H & _).
    apply (H demo_db {| pw_dir := "/home/deploy"; pw_uid := 1000;
                        pw_gid := 1000 |}); [done|reflexivity|].
    vm_compute. reflexivity.
  - destruct (home_resolution ok_host "ghost" demo_payload fresh_state)
      as (_ & _ & H & _).
    apply (H demo_db); [done|reflexivity|]. vm_compute. reflexivity.
  - destruct (home_resolution no_pwd_host "deploy" demo_payload
                home_deploy_state) as (_ & _ & _ & H & _).
    apply H; [done|reflexivity|]. vm_compute. reflexivity.
  - destruct (home_resolution no_pwd_host "deploy" demo_payload fresh_state)
      as (_ & _ & _ & _ & H).
    apply H; [done|reflexivity|]. vm_compute. reflexivity.
Defined.

Lemma update_users_app h keys_content pre post n s :
  update_users h (pre ++ post) keys_content n s
  = let '(s1, n1) := update_users h pre keys_content n s in
    update_users h post keys_content n1 s1.
Proof.
  revert n s. induction pre as [|u pre IH]; intros n s; simpl; [done|].
  destruct (update_authorized_keys h u keys_content s) as [s1 ok].
  apply IH.
Qed.

(** The tally never exceeds the accounts seen so far. *)
Lemma update_users_count h keys_content users n s :
  (n ≤ snd (update_users h users keys_content n s) ≤ n + length users)%nat.
Proof.
  revert n s. induction users as [|u users IH]; intros n s; simpl; [lia|].
  destruct (update_authorized_keys h u keys_content s) as [s1 [|]];
    [specialize (IH (S n) s1)|specialize (IH n s1)]; lia.
Qed.

(** C6. Whichever way the reconciliation of one account ends, the
    loop goes on with the accounts after it, from the state that
    attempt left and with the tally it produced.  In particular, for a
    valid account followed by one the user database does not know, the
    run reconciles the first, reports the second as not found, tallies
    1 out of 2 and goes on to the optional install step instead of
    exiting. *)
Theorem partial_failure_isolation h keys_content :
  (∀ pre user post n s,
     update_users h (pre ++ user :: post) keys_content n s
     = let '(s1, n1) := update_users h pre keys_content n s in
       let '(s2, ok) := update_authorized_keys h user keys_content s1 in
       update_users h post keys_content (if ok then S n1 else n1) s2)
  ∧ (∀ a valid ghost db s s0 s1,
       arg_uninstall a = false →
       users_of a = [valid; ghost] →
       fetch_authorized_keys h (arg_server a) (arg_key a) (arg_group a) s
       = (s0, Some keys_content) →
       update_authorized_keys h valid keys_content s0 = (s1, true) →
       ghost ≠ "root" → pwd_db h = Some db → db !! ghost = None →
       let s2 := emit ERROR ("User '" +:+ ghost +:+ "' not found") s1 in
       let s3 := emit INFO "Successfully updated keys for 1/2 user(s)" s2 in
       update_authorized_keys h ghost keys_content s1 = (s2, false)
       ∧ update_users h [valid; ghost] keys_content 0 s0 = (s2, 1%nat)
       ∧ main h a s
         = if arg_install a
           then install_cron h (arg_server a) (arg_key a) (arg_group a)
                  [valid; ghost] s3
           else (s3, Returned tt)).
Proof.
  split.
  - intros pre user post n s. rewrite update_users_app.
    by destruct (update_users h pre keys_content n s) as [s1 n1].
  - intros a valid ghost db s s0 s1 Hun Hus Hfetch Hvalid Hr Hdb Hg s2 s3.
    pose proof (update_unknown_user h ghost keys_content db s1 Hr Hdb Hg)
      as Hghost. fold s2 in Hghost.
    assert (update_users h [valid; ghost] keys_content 0 s0 = (s2, 1%nat))
      as Hloop by (simpl; by rewrite Hvalid, Hghost).
    split_and!; [done..|].
    unfold main. rewrite Hun, Hfetch, Hus, Hloop. reflexivity.
Qed.

Lemma partial_failure_isolation_witness :
  let s0 := fst (fetch_authorized_keys ok_host "http://server:3000" "adminkey"
                   "Developers" fresh_state) in
  let s1 := fst (update_authorized_keys ok_host "deploy" demo_payload s0) in
  let s2 := emit ERROR "User 'ghost' not found" s1 in
  update_authorized_keys ok_host "ghost" demo_payload s1 = (s2, false)
  ∧ update_users ok_host ["deploy"; "ghost"] demo_payload 0 s0 = (s2, 1%nat)
  ∧ main ok_host mixed_args fresh_state
    = (emit INFO "Successfully updated keys for 1/2 user(s)" s2, Returned tt).
Proof.
  intros s0 s1 s2.
  destruct (partial_failure_isolation ok_host demo_payload) as [_ H].
  apply (H mixed_args "deploy" "ghost" demo_db fresh_state s0 s1);
    try (vm_compute; reflexivity); done.
Defined.

(** ** Uninstalling *)

(** C9 as stated fails: a table without any entry of this tool is
    not written back as it was, the white space around it is stripped
    first. *)
Lemma uninstall_rewrites_table :
  let r := uninstall_cron ok_host indented_table_state in
  tool_lines (table_of indented_table_state) = []
  ∧ snd r = Returned tt
  ∧ crontab (fst r)
    = Some ("0 5 * * * /usr/local/bin/backup" +:+ String Py.nl "")
  ∧ crontab (fst r) ≠ crontab indented_table_state.
Proof. vm_compute. repeat split. discriminate. Qed.

(** C9 (as amended). Run by root on a host with the crontab tooling,
    [uninstall] touches no file.  Without a table it writes nothing and
    returns normally; a table that cannot be decoded makes it exit with
    status 1.  Otherwise it returns normally, and what counts is the
    table as read in text mode, where every CR LF and every CR is one
    line break: when that text has no line of this tool, the text
    handed to the scheduler is the text stripped of leading and
    trailing white space plus one newline, so a table without carriage
    return that has that shape stays as it is; whenever filtering
    leaves nothing, the table is removed. *)
Theorem uninstall_without_entries h s :
  euid h = 0 → crontab_present h = true →
  fs (fst (uninstall_cron h s)) = fs s
  ∧ match crontab s with
    | None =>
        match crontab_decode_error s with
        | None =>
            uninstall_cron h s = (emit INFO "No crontab found" s, Returned tt)
        | Some msg =>
            uninstall_cron h s
            = (emit ERROR ("Error uninstalling cron job: " +:+ msg) s,
               SysExit 1)
        end
    | Some t =>
        let text := Py.translate_newlines t in
        ∃ s', uninstall_cron h s = (s', Returned tt)
          ∧ (filtered_crontab text = "" → crontab s' = None)
          ∧ (tool_lines text = [] → Py.strip text ≠ "" →
             crontab s'
             = if crontab_accepts h (Py.strip text +:+ String Py.nl "")
               then Some (Py.strip text +:+ String Py.nl "")
               else Some t)
          ∧ (tool_lines t = [] → Py.strip t ≠ "" →
             Py.has_char Py.cr t = false →
             t = Py.strip t +:+ String Py.nl "" → crontab s' = Some t)
    end.
Proof.
  intros He Hp. unfold uninstall_cron, crontab_l, crontab_write, crontab_r.
  apply Z.eqb_eq in He. rewrite He, Hp. simpl.
  destruct (crontab s) as [t|] eqn:Ht;
    [|by destruct (crontab_decode_error s)].
  assert (Py.has_char Py.cr t = false → Py.translate_newlines t = t) as Hid
    by apply CronFacts.translate_newlines_cr_free.
  destruct (filtered_crontab (Py.translate_newlines t)) as [|c r] eqn:E;
    cbn [Py.truthy].
  - split; [done|]. eexists. split; [done|]. simpl. split_and!.
    + done.
    + intros Hclean%filtered_clean. congruence.
    + intros Hclean Hne Hcr. rewrite (Hid Hcr) in E.
      apply filtered_clean in Hclean. congruence.
  - destruct (crontab_accepts h (String c r +:+ String Py.nl "")) eqn:Ha;
      (split; [done|]; eexists; split; [done|]; simpl; split_and!;
       [done
       |intros Hclean%filtered_clean _; rewrite <-Hclean, E, Ha; done
       |intros Hclean Hne Hcr Heq; rewrite (Hid Hcr) in E;
        apply filtered_clean in Hclean;
        rewrite <-Hclean, E in Heq; congruence]).
Qed.

Lemma uninstall_without_entries_witness :
  uninstall_cron ok_host fresh_state
  = (emit INFO "No crontab found" fresh_state, Returned tt)
  ∧ crontab (fst (uninstall_cron ok_host plain_table_state))
    = crontab plain_table_state.
Proof.
  split.
  - apply (uninstall_without_entries ok_host fresh_state); reflexivity.
  - destruct (uninstall_without_entries ok_host plain_table_state)
      as (_ & s' & Hrun & _ & _ & Hsame); [reflexivity..|].
    rewrite Hrun. simpl.
    apply Hsame; vm_compute; [reflexivity|discriminate|reflexivity..].
Defined.

(** * Further properties *)

(** ** What a reconciliation may touch *)

Section Confinement.

Variable h : host.

Lemma touches_refl P s : touches P s s.
Proof. repeat split; auto. exists []. by rewrite app_nil_r. Qed.

Lemma touches_trans P s1 s2 s3 :
  touches P s1 s2 → touches P s2 s3 → touches P s1 s3.
Proof.
  intros (Hc1 & Hf1 & He1 & l1 & Hl1) (Hc2 & Hf2 & He2 & l2 & Hl2).
  split_and!.
  - congruence.
  - intros q Hq. rewrite Hf2, Hf1; done.
  - intros q Hq. auto.
  - exists (l1 ++ l2). by rewrite Hl2, Hl1, app_assoc.
Qed.

Lemma touches_weaken (P Q : string → Prop) s s' :
  (∀ q, P q → Q q) → touches P s s' → touches Q s s'.
Proof.
  intros HPQ (Hc & Hf & He & Hl). split_and!; auto.
Qed.

Lemma touches_emit P lvl msg s : touches P s (emit lvl msg s).
Proof. repeat split; auto. by exists [(lvl, msg)]. Qed.

Lemma touches_insert p n s :
  touches (eq p) s (set_fs (<[p := n]> (fs s)) s).
Proof.
  split_and!; simpl.
  - done.
  - intros q Hq. apply lookup_insert_ne. done.
  - intros q Hq. destruct (decide (p = q)) as [->|Hne].
    + rewrite lookup_insert_eq. eauto.
    + by rewrite lookup_insert_ne.
  - exists []. by rewrite app_nil_r.
Qed.

Lemma confined_weaken {A} (P Q : string → Prop) (m : M A) :
  (∀ q, P q → Q q) → confined P m → confined Q m.
Proof. intros HPQ Hm s s' r Hrun. eapply touches_weaken; eauto. Qed.

Lemma confined_ret {A} P (a : A) : confined P (ret a).
Proof. intros s s' r [= <- _]. apply touches_refl. Qed.

Lemma confined_raise {A} P e : confined P (@raise A e).
Proof. intros s s' r [= <- _]. apply touches_refl. Qed.

Lemma confined_emit P lvl msg : confined P (lift (emit lvl msg)).
Proof. intros s s' r [= <- _]. apply touches_emit. Qed.

Lemma confined_bind {A B} P (m : M A) (k : A → M B) :
  confined P m → (∀ a, confined P (k a)) → confined P (bind m k).
Proof.
  intros Hm Hk s s' r. unfold bind.
  destruct (m s) as [s1 [e|a]] eqn:E.
  - intros [= <- _]. eauto.
  - intros Hrun. eapply touches_trans; [by eapply Hm|by eapply Hk].
Qed.

Ltac confine_op :=
  intros s s' r; unfold guard_writable, bind, lift, raise, ret;
  repeat case_match; intros; simplify_eq;
  first [apply touches_refl | apply touches_insert].

Lemma grows_touches P s s' : grows_within P s s' → touches P s s'.
Proof.
  intros (Hc & _ & Hl & Hf). split_and!.
  - done.
  - intros q Hq. by destruct (Hf q) as [E|(_ & _ & HP)].
  - intros q Hq. destruct (Hf q) as [->|(E & _)]; [done|].
    rewrite E in Hq. by destruct Hq.
  - exists []. by rewrite List.app_nil_r.
Qed.

Lemma confined_makedirs p mode :
  confined (λ q, Py.startswith q p = true) (makedirs h p mode).
Proof. intros s s' r Hrun. by eapply grows_touches, makedirs_grows. Qed.

Lemma confined_write_text p text : confined (eq p) (write_text h p text).
Proof. unfold write_text. confine_op. Qed.

Lemma confined_chmod p mode : confined (eq p) (chmod h p mode).
Proof. unfold chmod. confine_op. Qed.

Lemma confined_chown p uid gid : confined (eq p) (chown h p uid gid).
Proof. unfold chown. confine_op. Qed.

Lemma confined_copy2 src dst :
  confined (λ q, q = dst ∨ q = Py.path_join dst (Py.basename src))
    (copy2 h src dst).
Proof.
  intros s s' r. unfold copy2, guard_writable, bind, lift, raise, ret.
  repeat case_match; intros; simplify_eq;
    first [apply touches_refl
          |eapply touches_weaken; [|apply touches_insert]; naive_solver].
Qed.

Lemma confined_backup_existing keys_file backup_file :
  confined (λ q, q = backup_file
                 ∨ q = Py.path_join backup_file (Py.basename keys_file))
    (backup_existing h keys_file backup_file).
Proof.
  intros s s' r. unfold backup_existing.
  destruct (path_exists keys_file s).
  - apply confined_bind; [apply confined_copy2|intros; apply confined_emit].
  - apply confined_ret.
Qed.

Lemma confined_set_ownership user keys_file ssh_dir :
  confined (λ q, q = keys_file ∨ q = ssh_dir)
    (set_ownership h user keys_file ssh_dir).
Proof.
  unfold set_ownership. repeat case_match; try apply confined_ret.
  apply confined_bind; [|intros _];
    (eapply confined_weaken; [|apply confined_chown]); naive_solver.
Qed.

Lemma confined_write_and_protect user home_dir keys_content :
  confined (λ q, q = keys_file_of home_dir ∨ q = ssh_dir_of home_dir)
    (write_and_protect h user home_dir keys_content).
Proof.
  unfold write_and_protect.
  repeat (apply confined_bind; [|intros _]);
    try apply confined_emit; try apply confined_set_ownership;
    (eapply confined_weaken;
     [|first [apply confined_write_text|apply confined_chmod]]);
    naive_solver.
Qed.

Lemma install_keys_steps user home_dir keys_content :
  install_keys h user home_dir keys_content
  = (makedirs h (ssh_dir_of home_dir) mode_0700 ;;
     backup_existing h (keys_file_of home_dir) (backup_file_of home_dir) ;;
     write_and_protect h user home_dir keys_content).
Proof. reflexivity. Qed.

(** The steps after [makedirs] stay within the account's paths. *)
Lemma confined_after_makedirs user home_dir keys_content :
  confined (account_paths home_dir)
    (backup_existing h (keys_file_of home_dir) (backup_file_of home_dir) ;;
     write_and_protect h user home_dir keys_content).
Proof.
  apply confined_bind; [|intros _].
  - eapply confined_weaken; [|apply confined_backup_existing].
    intros q [-> | ->]; unfold account_paths; auto.
  - eapply confined_weaken; [|apply confined_write_and_protect].
    intros q [-> | ->]; unfold account_paths; auto.
Qed.

Lemma confined_install_keys user home_dir keys_content :
  confined (λ q, Py.startswith q (ssh_dir_of home_dir) = true
                 ∨ account_paths home_dir q)
    (install_keys h user home_dir keys_content).
Proof.
  rewrite install_keys_steps.
  apply confined_bind; [|intros _].
  - eapply confined_weaken; [|apply confined_makedirs]. auto.
  - eapply confined_weaken; [|apply confined_after_makedirs]. auto.
Qed.


Lemma resolve_home_effect user s :
  ∃ l, fst (resolve_home h user s)
       = {| fs := fs s; crontab := crontab s;
            crontab_decode_error := crontab_decode_error s;
            log := log s ++ l |}.
Proof.
  unfold resolve_home. destruct s as [f c d l0].
  repeat case_match; simpl; unfold emit; simpl;
    first [by exists []; rewrite app_nil_r | eauto].
Qed.

Lemma update_touches user keys_content s s' ok :
  update_authorized_keys h user keys_content s = (s', ok) →
  touches (λ q, ∃ home_dir,
             home_of h user s = Some home_dir
             ∧ (Py.startswith q (ssh_dir_of home_dir) = true
                ∨ account_paths home_dir q)) s s'.
Proof.
  unfold update_authorized_keys, home_of.
  destruct (resolve_home_effect user s) as [l Hl].
  destruct (resolve_home h user s) as [s0 [home_dir|]] eqn:Hres;
    simpl in Hl; subst s0.
  - assert (l = []) as ->.
    { unfold resolve_home in Hres. destruct s as [f c d l0].
      repeat case_match; simplify_eq; simpl in *;
        match goal with
        | H : _ = _ ++ _ |- _ =>
            symmetry in H; rewrite <-(app_nil_r l0) in H at 2;
            by apply app_inv_head in H
        end. }
    rewrite app_nil_r.
    replace {| fs := fs s; crontab := crontab s;
               crontab_decode_error := crontab_decode_error s;
               log := log s |} with s
      by (by destruct s).
    destruct (install_keys h user home_dir keys_content s) as [s1 r] eqn:Hrun.
    apply confined_install_keys in Hrun.
    assert (touches (λ q, ∃ home_dir0,
                       Some home_dir = Some home_dir0
                       ∧ (Py.startswith q (ssh_dir_of home_dir0) = true
                          ∨ account_paths home_dir0 q)) s s1)
      as Ht by (eapply touches_weaken; [|exact Hrun]; simpl; eauto).
    destruct r as [e|[]]; [|by intros [= <- _]].
    destruct e; intros [= <- _];
      (eapply touches_trans; [exact Ht|apply touches_emit]).
  - intros [= <- _]. split_and!; simpl; auto. eauto.
Qed.

End Confinement.

(** ** The reconciler beyond the claims *)

Section ReconcilerMore.

Variable h : host.

Import Py PyFacts CronFacts.

(** The file store a run ends with is the one its writing part
    ends with: the exception handlers only log. *)
Lemma update_fs_of_install user keys_content s home_dir s1 r :
  home_of h user s = Some home_dir →
  install_keys h user home_dir keys_content s = (s1, r) →
  fs (fst (update_authorized_keys h user keys_content s)) = fs s1
  ∧ snd (update_authorized_keys h user keys_content s)
    = match r with inr _ => true | inl _ => false end.
Proof.
  intros Hhome%resolve_home_some Hrun.
  unfold update_authorized_keys. rewrite Hhome, Hrun.
  destruct r as [[]|[]]; done.
Qed.

Lemma home_of_none_update user keys_content s :
  home_of h user s = None →
  fs (fst (update_authorized_keys h user keys_content s)) = fs s
  ∧ snd (update_authorized_keys h user keys_content s) = false.
Proof.
  unfold home_of, update_authorized_keys.
  destruct (resolve_home_effect h user s) as [l Hl].
  destruct (resolve_home h user s) as [s0 [home_dir|]]; [done|].
  simpl in *. subst s0. done.
Qed.


(** X2. The content the key file had before a reconciliation is
    never lost, whether the run succeeds or fails at any step: afterwards
    it is still in the key file, or it is in the copy that the backup
    step made. *)
Theorem old_keys_survive user keys_content s home_dir X :
  home_of h user s = Some home_dir →
  read_file (fs s) (keys_file_of home_dir) = Some X →
  let s' := fst (update_authorized_keys h user keys_content s) in
  read_file (fs s') (keys_file_of home_dir) = Some X
  ∨ read_file (fs s')
      (copy2_target (keys_file_of home_dir) (backup_file_of home_dir) s)
    = Some X.
Proof.
  intros Hhome HX s'.
  destruct (paths_distinct home_dir) as (Hks & Hbk & Hbs & Hik & His).
  destruct (install_keys h user home_dir keys_content s) as [s3 r] eqn:Hrun.
  destruct (update_fs_of_install _ keys_content _ _ _ _ Hhome Hrun) as [Hfs _].
  subst s'. rewrite Hfs. clear Hfs.
  rewrite install_keys_steps in Hrun. unfold bind at 1 in Hrun.
  destruct (makedirs h (ssh_dir_of home_dir) mode_0700 s) as [s1 r1] eqn:R1.
  pose proof (makedirs_frame h _ _ _ _ _ R1) as Hf1.
  destruct (paths_longer home_dir) as (Hlk & Hlb & _).
  assert (fs s1 !! keys_file_of home_dir = fs s !! keys_file_of home_dir)
    as Hk1 by (by apply Hf1).
  assert (copy2_target (keys_file_of home_dir) (backup_file_of home_dir) s1
          = copy2_target (keys_file_of home_dir) (backup_file_of home_dir) s)
    as HT by (unfold copy2_target; by rewrite Hf1).
  assert (read_file (fs s1) (keys_file_of home_dir) = Some X) as HX1
    by (unfold read_file; by rewrite Hk1).
  destruct r1 as [e|[]]; [left; by simplify_eq|].
  unfold bind at 1 in Hrun. unfold backup_existing, path_exists in Hrun.
  rewrite bool_decide_eq_true_2 in Hrun
    by (unfold read_file in HX1; by destruct (fs s1 !! _)).
  unfold bind at 1 in Hrun.
  destruct (copy2 h (keys_file_of home_dir) (backup_file_of home_dir) s1)
    as [s2 r2] eqn:R2.
  destruct r2 as [e|[]].
  - left. simplify_eq.
    pose proof (confined_copy2 h _ _ _ _ _ R2) as (_ & Hf2 & _).
    unfold read_file. rewrite Hf2; [done|].
    intros [E|E]; congruence.
  - right. apply copy2_ok in R2 as [(c & m & u & g & u' & g' & Hsrc & Hdst) _].
    unfold read_file in HX1. rewrite Hsrc in HX1. simplify_eq.
    unfold lift in Hrun.
    apply confined_write_and_protect in Hrun as (_ & Hf3 & _).
    unfold read_file. rewrite Hf3; simpl; rewrite <-HT; [by rewrite Hdst|].
    unfold copy2_target.
    destruct (is_dir (fs s1 !! backup_file_of home_dir)); intros [E|E];
      congruence.
Qed.

Lemma home_of_stable user keys_content s home_dir :
  home_of h user s = Some home_dir →
  home_of h user (fst (update_authorized_keys h user keys_content s))
  = Some home_dir.
Proof.
  destruct (update_authorized_keys h user keys_content s) as [s1 ok] eqn:E.
  pose proof (update_touches h _ _ _ _ _ E) as (_ & _ & He & _). simpl.
  unfold home_of, resolve_home, path_exists.
  repeat case_match; simpl; try done.
  match goal with H : bool_decide _ = false |- _ =>
    apply bool_decide_eq_false in H; destruct H end.
  apply He. by match goal with H : bool_decide _ = true |- _ =>
    apply bool_decide_eq_true in H end.
Qed.

Lemma install_keys_ok_backup_kind user home_dir keys_content s s' :
  install_keys h user home_dir keys_content s = (s', inr tt) →
  is_dir (fs s !! backup_file_of home_dir) = false →
  is_dir (fs s' !! backup_file_of home_dir) = false.
Proof.
  intros H Hnd.
  destruct (paths_distinct home_dir) as (Hks & Hbk & Hbs & _ & _).
  rewrite install_keys_steps in H.
  apply bind_ok in H as (s1 & [] & Hmk & H).
  pose proof (makedirs_frame h _ _ _ _ _ Hmk) as Hf1.
  destruct (paths_longer home_dir) as (_ & Hlb & _).
  apply bind_ok in H as (s2 & [] & Hbak%backup_existing_ok & H).
  apply confined_write_and_protect in H as (_ & Hf3 & _).
  rewrite Hf3 by (intros [E|E]; congruence).
  assert (is_dir (fs s1 !! backup_file_of home_dir) = false) as Hnd1
    by (by rewrite Hf1).
  destruct Hbak as [[_ ->]|(c&m&u&g&u'&g'&_&Hdst&_)]; [done|].
  unfold copy2_target in Hdst. rewrite Hnd1 in Hdst. by rewrite Hdst.
Qed.

(** X3. The backup keeps one generation only: after two successful
    reconciliations in a row, the backup holds the payload of the first
    one (whatever the key file held before it) and the key file holds
    the payload of the second. *)
Theorem second_run_backs_up_first_payload user keys1 keys2 s s1 s2 home_dir :
  home_of h user s = Some home_dir →
  is_dir (fs s !! backup_file_of home_dir) = false →
  update_authorized_keys h user keys1 s = (s1, true) →
  update_authorized_keys h user keys2 s1 = (s2, true) →
  read_file (fs s2) (backup_file_of home_dir) = Some keys1
  ∧ read_file (fs s2) (keys_file_of home_dir) = Some keys2.
Proof.
  intros Hhome Hnd Hrun1 Hrun2.
  pose proof (home_of_stable user keys1 s home_dir Hhome) as Hhome1.
  rewrite Hrun1 in Hhome1. simpl in Hhome1.
  apply update_ok_home in Hrun1 as (home1 & E1 & Hok1).
  apply update_ok_home in Hrun2 as (home2 & E2 & Hok2).
  assert (home1 = home_dir) as -> by congruence.
  assert (home2 = home_dir) as -> by congruence.
  pose proof (install_keys_ok_backup_kind _ _ _ _ _ Hok1 Hnd) as Hnd1.
  destruct (install_keys_post h _ _ _ _ _ Hok1) as (Hk1 & _).
  destruct (install_keys_post h _ _ _ _ _ Hok2) as (Hk2 & _ & _ & _ & Hb2 & _).
  split; [by apply Hb2|done].
Qed.

Lemma owner_with_owner (f : gmap string node) p uid gid n :
  uid ≠ -1 → gid ≠ -1 →
  f !! p = Some (with_owner uid gid n) → owner_at f p = Some (uid, gid).
Proof.
  unfold owner_at, with_owner, chown_id.
  intros Hu%Z.eqb_neq Hg%Z.eqb_neq ->. rewrite Hu, Hg. by destruct n.
Qed.

(** X4. Run as root for an account the user database knows, a
    successful reconciliation hands the key file and the [.ssh]
    directory to the uid and gid of that account, provided neither id
    is -1, the value that tells [os.chown] to leave an id as it is. *)
Theorem reconcile_sets_owner user keys_content s s' db ent :
  euid h = 0 → pwd_db h = Some db → db !! user = Some ent →
  pw_uid ent ≠ -1 → pw_gid ent ≠ -1 →
  update_authorized_keys h user keys_content s = (s', true) →
  ∃ home_dir, home_of h user s = Some home_dir
    ∧ owner_at (fs s') (keys_file_of home_dir) = Some (pw_uid ent, pw_gid ent)
    ∧ owner_at (fs s') (ssh_dir_of home_dir) = Some (pw_uid ent, pw_gid ent).
Proof.
  intros He Hdb Hent Hu Hg (home_dir & Hhome & H)%update_ok_home.
  exists home_dir. split; [done|].
  destruct (paths_distinct home_dir) as (Hks & _).
  rewrite install_keys_steps in H.
  apply bind_ok in H as (s1 & [] & _ & H).
  apply bind_ok in H as (s2 & [] & _ & H).
  unfold write_and_protect in H.
  apply bind_ok in H as (s3 & [] & _ & H).
  apply bind_ok in H as (s4 & [] & _ & H).
  apply bind_ok in H as (s5 & [] & _ & H).
  apply bind_ok in H as (s6 & [] & Hown & H).
  unfold lift in H. injection H as <-. simpl.
  unfold set_ownership in Hown. apply Z.eqb_eq in He.
  rewrite He, Hdb, Hent in Hown.
  apply bind_ok in Hown as (s5' & [] & [(n & _ & Hn) _]%chown_ok
                            & [(n' & _ & Hn') Hfr]%chown_ok).
  split.
  - apply (owner_with_owner _ _ _ _ n Hu Hg). by rewrite Hfr.
  - by apply (owner_with_owner _ _ _ _ n' Hu Hg).
Qed.

(** *** A process that may change nothing *)

Section Locked.

Hypothesis Hlocked : ∀ p, writable h p = false.

Lemma inert_bind {A B} (m : M A) (k : A → M B) :
  inert m → (∀ a, inert (k a)) → inert (bind m k).
Proof.
  intros Hm Hk s s' r. unfold bind.
  destruct (m s) as [s1 [e|a]] eqn:E.
  - intros [= <- _]. eauto.
  - intros Hrun. rewrite (Hk a _ _ _ Hrun). eauto.
Qed.

Ltac inert_op :=
  intros s s' r; unfold guard_writable, bind, lift, raise, ret;
  rewrite ?Hlocked; repeat case_match; intros; by simplify_eq.

Lemma inert_mkdir p mode : inert (mkdir h p mode).
Proof. unfold mkdir. inert_op. Qed.

Lemma inert_mkdir_leaf p mode : inert (mkdir_leaf h p mode).
Proof.
  intros s s' r. unfold mkdir_leaf.
  destruct (mkdir h p mode s) as [s1 r1] eqn:E. apply inert_mkdir in E.
  repeat case_match; intros; by simplify_eq.
Qed.

Lemma inert_makedirs_rec fuel p mode : inert (makedirs_rec h fuel p mode).
Proof.
  revert p mode. induction fuel as [|fuel IH]; intros p mode s s' r.
  { by intros [= <- _]. }
  rewrite makedirs_rec_step.
  destruct (path_split p) as [hd1 tl1].
  destruct (if truthy tl1 then (hd1, tl1) else path_split hd1) as [hd tl].
  destruct (truthy hd && truthy tl && negb (is_root hd || path_exists hd s));
    [|apply inert_mkdir_leaf].
  destruct (makedirs_rec h fuel hd 0x1FF s) as [s1 r1] eqn:E.
  apply IH in E.
  assert (∀ s2 r2,
            (if String.eqb tl "." then (s1, inr tt)
             else mkdir_leaf h p mode s1) = (s2, r2) → fs s2 = fs s) as Hrest.
  { intros s2 r2. destruct (String.eqb tl ".").
    - by intros [= <- _].
    - intros Hl%inert_mkdir_leaf. congruence. }
  destruct r1 as [e|[]]; [|apply Hrest].
  destruct e; try (by intros [= <- _]); apply Hrest.
Qed.

Lemma inert_makedirs p mode : inert (makedirs h p mode).
Proof. apply inert_makedirs_rec. Qed.

Lemma inert_write_text p text : inert (write_text h p text).
Proof. unfold write_text. inert_op. Qed.

Lemma inert_chmod p mode : inert (chmod h p mode).
Proof. unfold chmod. inert_op. Qed.

Lemma inert_chown p uid gid : inert (chown h p uid gid).
Proof. unfold chown. inert_op. Qed.

Lemma inert_copy2 src dst : inert (copy2 h src dst).
Proof. unfold copy2. inert_op. Qed.

Lemma inert_emit lvl msg : inert (lift (emit lvl msg)).
Proof. by intros s s' r [= <- _]. Qed.

Lemma inert_install_keys user home_dir keys_content :
  inert (install_keys h user home_dir keys_content).
Proof.
  unfold install_keys, backup_existing, set_ownership.
  repeat (apply inert_bind; [|intros _]);
    try apply inert_emit; try apply inert_makedirs;
    try apply inert_write_text; try apply inert_chmod.
  - intros s s' r. destruct (path_exists _ s).
    + apply inert_bind; [apply inert_copy2|intros _; apply inert_emit].
    + by intros [= <- _].
  - repeat case_match; try (by intros s s' r [= <- _]).
    apply inert_bind; [|intros _]; apply inert_chown.
Qed.

Lemma locked_write_text_fails p text s s' :
  write_text h p text s ≠ (s', inr tt).
Proof.
  unfold write_text, guard_writable, bind, lift, raise, ret.
  rewrite Hlocked. by repeat case_match.
Qed.

(** X5. When the process may change no path at all, every
    reconciliation fails and no node is created or changed. *)
Theorem locked_out_changes_nothing user keys_content s :
  snd (update_authorized_keys h user keys_content s) = false
  ∧ fs (fst (update_authorized_keys h user keys_content s)) = fs s.
Proof.
  destruct (home_of h user s) as [home_dir|] eqn:Hhome.
  - destruct (install_keys h user home_dir keys_content s) as [s1 r] eqn:Hrun.
    destruct (update_fs_of_install _ keys_content _ _ _ _ Hhome Hrun)
      as [-> ->].
    split; [|by apply inert_install_keys in Hrun].
    destruct r as [e|[]]; [done|]. exfalso.
    rewrite install_keys_steps in Hrun.
    apply bind_ok in Hrun as (s2 & [] & _ & Hrun).
    apply bind_ok in Hrun as (s3 & [] & _ & Hrun).
    unfold write_and_protect in Hrun.
    apply bind_ok in Hrun as (s4 & [] & Hwrite & _).
    by apply locked_write_text_fails in Hwrite.
  - destruct (home_of_none_update user keys_content s Hhome) as [-> ->]. done.
Qed.

End Locked.

Lemma last_record_emit lvl msg s :
  last_record (emit lvl msg s) = Some (lvl, msg).
Proof.
  unfold last_record, emit. simpl.
  rewrite List.map_app. simpl. apply last_last.
Qed.

(** X6. Every reconciliation attempt ends with a log record that
    names the account: an INFO record when it succeeded, an ERROR
    record when it failed. *)
Theorem reconcile_reports user keys_content s :
  let r := update_authorized_keys h user keys_content s in
  ∃ msg, last_record (fst r) = Some (if snd r then INFO else ERROR, msg)
         ∧ contains user msg = true.
Proof.
  unfold update_authorized_keys, resolve_home.
  repeat case_match; simplify_eq; simpl;
    try (eexists; split; [apply last_record_emit|apply contains_intro]).
  all: match goal with
       | H : install_keys _ _ _ _ _ = (_, inr _) |- _ =>
           rewrite install_keys_steps in H;
           apply bind_ok in H as (? & [] & _ & H);
           apply bind_ok in H as (? & [] & _ & H);
           unfold write_and_protect in H;
           apply bind_ok in H as (? & [] & _ & H);
           apply bind_ok in H as (? & [] & _ & H);
           apply bind_ok in H as (? & [] & _ & H);
           apply bind_ok in H as (? & [] & _ & H);
           unfold lift in H; injection H as <-
       end;
    (eexists; split; [apply last_record_emit|apply contains_intro]).
Qed.

End ReconcilerMore.

(** ** Witnesses for the reconciler *)

Lemma old_keys_survive_witness :
  let s' := fst (update_authorized_keys ok_host "root" demo_payload demo_state) in
  read_file (fs s') (keys_file_of "/root") = Some "old-key"
  ∨ read_file (fs s')
      (copy2_target (keys_file_of "/root") (backup_file_of "/root") demo_state)
    = Some "old-key".
Proof.
  apply (old_keys_survive ok_host "root" demo_payload demo_state "/root");
    vm_compute; reflexivity.
Defined.

Lemma second_run_backs_up_first_payload_witness :
  let s1 := fst (update_authorized_keys ok_host "root" "first-key" demo_state) in
  let s2 := fst (update_authorized_keys ok_host "root" "second-key" s1) in
  read_file (fs s2) (backup_file_of "/root") = Some "first-key"
  ∧ read_file (fs s2) (keys_file_of "/root") = Some "second-key".
Proof.
  intros s1 s2.
  apply (second_run_backs_up_first_payload ok_host "root" "first-key"
           "second-key" demo_state s1 s2 "/root");
    vm_compute; reflexivity.
Defined.

Lemma reconcile_sets_owner_witness :
  ∃ home_dir,
    home_of ok_host "deploy" deploy_state = Some home_dir
    ∧ owner_at (fs (fst (update_authorized_keys ok_host "deploy" demo_payload
                           deploy_state))) (keys_file_of home_dir)
      = Some (1000, 1000)
    ∧ owner_at (fs (fst (update_authorized_keys ok_host "deploy" demo_payload
                           deploy_state))) (ssh_dir_of home_dir)
      = Some (1000, 1000).
Proof.
  apply (reconcile_sets_owner ok_host "deploy" demo_payload deploy_state _
           demo_db {| pw_dir := "/home/deploy"; pw_uid := 1000;
                      pw_gid := 1000 |});
    vm_compute; first [reflexivity | discriminate].
Defined.

Lemma locked_out_changes_nothing_witness :
  snd (update_authorized_keys locked_host "deploy" demo_payload deploy_state)
  = false
  ∧ fs (fst (update_authorized_keys locked_host "deploy" demo_payload
               deploy_state)) = fs deploy_state.
Proof.
  apply (locked_out_changes_nothing locked_host). intros p. reflexivity.
Defined.

(** ** More facts about the string primitives *)

Module PyMore.
Import Py PyFacts CronFacts.

Lemma has_char_strip c s : has_char c s = false → has_char c (strip s) = false.
Proof.
  unfold strip. intros H.
  destruct (lstrip_suffix isspace s) as [a Ha].
  destruct (rstrip_prefix isspace (lstrip_by isspace s)) as [b Hb].
  rewrite Ha, Hb, !has_char_app in H.
  by apply orb_false_iff in H as [_ [H _]%orb_false_iff].
Qed.

Lemma lstrip_fixed f s :
  (∀ c r, s = String c r → f c = false) → lstrip_by f s = s.
Proof.
  destruct s as [|c r]; [done|]. intros H. simpl. by rewrite (H c r).
Qed.

Lemma strip_idemp s : strip (strip s) = strip s.
Proof.
  unfold strip at 1. rewrite lstrip_fixed.
  - unfold strip. apply rstrip_idemp.
  - intros c r. apply strip_head.
Qed.

Lemma split_join sep (items : list string) :
  items ≠ [] → Forall (λ x, has_char sep x = false) items →
  split sep (join (String sep "") items) = items.
Proof.
  intros Hne HF. induction HF as [|x items Hx HF IH]; [done|].
  destruct items as [|y items].
  - by apply split_no_sep.
  - rewrite join_cons2, app_single, split_app_sep, (split_no_sep _ _ Hx).
    by rewrite IH.
Qed.

Lemma contains_head p b : contains p (p +:+ b) = true.
Proof. exact (contains_intro p "" b). Qed.

Lemma truthy_join_cons sep x items :
  truthy x = true → truthy (join sep (x :: items)) = true.
Proof.
  destruct x as [|c x]; [done|]. intros _.
  destruct items; [done|]. by rewrite join_cons2, app_cons.
Qed.

End PyMore.

(** ** The account list *)

Section Accounts.

Import Py PyFacts CronFacts PyMore.

(** What every parsed account name satisfies. *)
Lemma users_of_elem a u :
  u ∈ users_of a →
  u ≠ "" ∧ strip u = u ∧ has_char comma u = false.
Proof.
  unfold users_of. intros Hin.
  assert (u ∈ ["root"] → u ≠ "" ∧ strip u = u ∧ has_char comma u = false)
    as Hroot by (intros ->%list_elem_of_singleton; by vm_compute).
  destruct (arg_users a) as [us|]; [|by apply Hroot].
  destruct (truthy us); [|by apply Hroot].
  apply list_elem_of_In, in_map_iff in Hin as (x & <- & Hx).
  apply filter_In in Hx as [Hx Ht].
  split_and!.
  - by destruct (strip x).
  - apply strip_idemp.
  - apply has_char_strip.
    pose proof (split_pieces comma us) as HF.
    rewrite Forall_forall in HF. by apply HF, list_elem_of_In.
Qed.

(** X7. Every account name the run works on is non-empty, carries
    no white space at either end and no comma, whatever was passed on
    the command line; without a usable [--users] value the list is
    [root] alone. *)
Theorem users_of_clean a :
  Forall (λ u, u ≠ "" ∧ strip u = u ∧ has_char comma u = false) (users_of a)
  ∧ (arg_users a = None ∨ arg_users a = Some "" → users_of a = ["root"]).
Proof.
  split.
  - apply Forall_forall. intros u Hu. by apply (users_of_elem a).
  - unfold users_of. by intros [-> | ->].
Qed.

(** X8. The account list survives the round trip through the cron
    entry: parsing the comma-joined list that [install_cron] embeds
    gives the list back, provided it is not empty. *)
Theorem users_roundtrip a :
  users_of a ≠ [] → users_of (rerun_args a) = users_of a.
Proof.
  intros Hne.
  assert (Forall (λ u, u ≠ "" ∧ strip u = u ∧ has_char comma u = false)
            (users_of a)) as HF
    by (apply Forall_forall; intros u Hu; by apply (users_of_elem a)).
  unfold rerun_args, users_of at 1. cbn [arg_users].
  destruct (users_of a) as [|u0 l]; [done|].
  rewrite truthy_join_cons
    by (apply Forall_inv in HF as (? & _); by destruct u0).
  change "," with (String comma "").
  rewrite split_join;
    [|done|eapply Forall_impl; [exact HF|]; by intros v (_ & _ & ?)].
  rewrite filter_all.
  - clear Hne. induction HF as [|u l' (_ & Hu & _) _ IH]; [done|].
    simpl. by rewrite Hu, IH.
  - eapply Forall_impl; [exact HF|]. intros v (Hv & -> & _). by destruct v.
Qed.

End Accounts.

Lemma users_roundtrip_witness :
  users_of (rerun_args spaced_args) = ["root"; "deploy"].
Proof.
  rewrite (users_roundtrip spaced_args); vm_compute; [reflexivity|discriminate].
Defined.

(** ** The key source client beyond the claims *)

Section ClientMore.

Variable h : host.

Import Py PyFacts CronFacts PyMore.

Lemma fetch_log_shape server_url admin_key group_name s :
  let r := fetch_authorized_keys h server_url admin_key group_name s in
  ∃ msg, log (fst r)
         = log s ++ [(INFO, "Fetching authorized_keys from "
                            +:+ fetch_url server_url admin_key group_name);
                     (match snd r with Some _ => INFO | None => ERROR end,
                      msg)].
Proof.
  intros r. unfold r, fetch_authorized_keys.
  destruct (urlopen h _ admin_key) as [status [c|m]|code reason|reason|m];
    [destruct (status =? 200)..
    |destruct (code =? 404); [|destruct (code =? 401)]| |];
    simpl; rewrite <-List.app_assoc; simpl; eauto.
Qed.

(** X9. A fetch changes no file node and not the cron table.  It
    appends exactly two log records: the request URL, then one record
    on the outcome that is an INFO record exactly when a payload is
    returned.  A payload is returned exactly when the exchange ended
    with status 200 and a decodable body, and it is that body as it
    came. *)
Theorem fetch_effects server_url admin_key group_name s :
  let r := fetch_authorized_keys h server_url admin_key group_name s in
  let url := fetch_url server_url admin_key group_name in
  fs (fst r) = fs s ∧ crontab (fst r) = crontab s
  ∧ (∃ msg, log (fst r)
            = log s ++ [(INFO, "Fetching authorized_keys from " +:+ url);
                        (match snd r with Some _ => INFO | None => ERROR end,
                         msg)])
  ∧ (∀ content, snd r = Some content
                ↔ urlopen h url admin_key = Response 200 (inl content)).
Proof.
  intros r url.
  destruct (fetch_frame h server_url admin_key group_name s) as [Hfs Hct].
  split_and!; [done|done|apply fetch_log_shape|].
  intros content. unfold r, fetch_authorized_keys. fold url.
  destruct (urlopen h url admin_key) as [status [c|m]|code reason|reason|m];
    simpl; try (split; intros; by simplify_eq).
  - destruct (status =? 200) eqn:E; simpl.
    + apply Z.eqb_eq in E as ->. split; by intros [= ->].
    + split; [done|]. intros [= -> ->]. by rewrite Z.eqb_refl in E.
  - destruct (status =? 200); simpl; split; intros; by simplify_eq.
Qed.

(** X10. A trailing slash of the server URL makes no difference to
    the request nor to anything else the fetch does. *)
Theorem fetch_ignores_trailing_slash server_url admin_key group_name s :
  fetch_authorized_keys h (server_url +:+ "/") admin_key group_name s
  = fetch_authorized_keys h server_url admin_key group_name s.
Proof.
  unfold fetch_authorized_keys, fetch_url.
  change "/" with (String slash "").
  by rewrite rstrip_app_drop by apply eqc_refl.
Qed.

(** X11. The admin key is written out in clear: the first record
    every fetch logs contains it, and so do the cron entry and, after a
    successful install, the cron table. *)
Theorem credential_is_written_out server_url admin_key group_name users s :
  (∃ msg outcome,
     log (fst (fetch_authorized_keys h server_url admin_key group_name s))
     = log s ++ [(INFO, msg); outcome]
     ∧ contains admin_key msg = true)
  ∧ contains admin_key (cron_entry h server_url admin_key group_name users)
    = true
  ∧ (∀ s1, install_cron h server_url admin_key group_name users s
           = (s1, Returned tt) →
           ∃ table, crontab s1 = Some table
                    ∧ contains admin_key table = true).
Proof.
  assert (contains admin_key
            (cron_entry h server_url admin_key group_name users) = true)
    as Hentry.
  { unfold cron_entry, cron_cmd. rewrite !app_assoc.
    do 7 apply contains_suffix. apply contains_head. }
  split_and!.
  - destruct (fetch_log_shape server_url admin_key group_name s) as [msg ->].
    eexists _, _. split; [done|].
    + unfold fetch_url.
      do 5 apply contains_suffix.
      rewrite <-(app_nil_r admin_key) at 2. apply contains_head.
  - done.
  - intros s1 (_ & _ & _ & ->)%install_cron_ok_inv.
    eexists. split; [done|]. unfold new_crontab_of.
    rewrite !app_assoc. do 3 apply contains_suffix.
    by apply contains_prefix.
Qed.

End ClientMore.

Lemma credential_is_written_out_witness :
  ∃ table,
    crontab (fst (install_cron ok_host "http://server:3000" "adminkey"
                    "Developers" ["root"] demo_state)) = Some table
    ∧ Py.contains "adminkey" table = true.
Proof.
  destruct (credential_is_written_out ok_host "http://server:3000" "adminkey"
              "Developers" ["root"] demo_state) as (_ & _ & H).
  apply H. vm_compute. reflexivity.
Defined.

(** ** The orchestrator beyond the claims *)

Section OrchestratorMore.

Variable h : host.

Import Py PyFacts CronFacts PyMore.

Lemma update_users_touches users keys_content n s :
  let s' := fst (update_users h users keys_content n s) in
  crontab s' = crontab s ∧ (∃ l, log s' = log s ++ l)
  ∧ (users = [] → s' = s).
Proof.
  revert n s. induction users as [|u users IH]; intros n s; simpl.
  - split_and!; [done|exists []; by rewrite List.app_nil_r|done].
  - destruct (update_authorized_keys h u keys_content s) as [s1 ok] eqn:E.
    pose proof (update_touches h _ _ _ _ _ E) as (Hc & _ & _ & l1 & Hl1).
    destruct (IH (if ok then S n else n) s1) as (Hc2 & (l2 & Hl2) & _).
    split_and!; [congruence| |done].
    exists (l1 ++ l2). by rewrite Hl2, Hl1, List.app_assoc.
Qed.

(** X12. When no account could be reconciled (an empty account list
    included) the run exits with status 1 and never reaches the install
    step: the cron table is as before even when [--install] was given,
    and with an empty list no file node has changed either. *)
Theorem no_success_no_install a s s0 keys_content :
  arg_uninstall a = false →
  fetch_authorized_keys h (arg_server a) (arg_key a) (arg_group a) s
  = (s0, Some keys_content) →
  snd (update_users h (users_of a) keys_content 0 s0) = 0%nat →
  snd (main h a s) = SysExit 1
  ∧ crontab (fst (main h a s)) = crontab s
  ∧ (users_of a = [] → fs (fst (main h a s)) = fs s).
Proof.
  intros Hun Hfetch Hzero.
  pose proof (fetch_frame h (arg_server a) (arg_key a) (arg_group a) s)
    as [Hfs Hct]. rewrite Hfetch in Hfs, Hct. simpl in Hfs, Hct.
  pose proof (update_users_touches (users_of a) keys_content 0 s0)
    as (Hc & _ & Hnil).
  unfold main. rewrite Hun, Hfetch.
  destruct (update_users h (users_of a) keys_content 0 s0) as [s1 n].
  simpl in *. subst n. simpl. split_and!; [done|congruence|].
  intros Hl. by rewrite (Hnil Hl).
Qed.


(** X14. A run that is not an uninstall returns normally only if
    the fetch delivered a payload and at least one account, and at most
    as many as were listed, was reconciled; if [--install] was given,
    the cron table then is the one built from the table the run
    started with, as it reads in text mode. *)
Theorem normal_return_means_progress a s :
  arg_uninstall a = false →
  snd (main h a s) = Returned tt →
  ∃ s0 keys_content s1 n,
    fetch_authorized_keys h (arg_server a) (arg_key a) (arg_group a) s
    = (s0, Some keys_content)
    ∧ update_users h (users_of a) keys_content 0 s0 = (s1, n)
    ∧ (0 < n ≤ length (users_of a))%nat
    ∧ (arg_install a = true →
       crontab (fst (main h a s))
       = Some (new_crontab_of
                 (cron_entry h (arg_server a) (arg_key a) (arg_group a)
                    (users_of a))
                 (Py.translate_newlines (table_of s)))).
Proof.
  intros Hun. unfold main. rewrite Hun.
  pose proof (fetch_frame h (arg_server a) (arg_key a) (arg_group a) s)
    as [_ Hct].
  destruct (fetch_authorized_keys h _ _ _ s) as [s0 [keys_content|]];
    simpl in *; [|done].
  pose proof (update_users_touches (users_of a) keys_content 0 s0) as (Hc & _).
  pose proof (update_users_count h keys_content (users_of a) 0 s0) as Hn.
  destruct (update_users h (users_of a) keys_content 0 s0) as [s1 n] eqn:Hloop.
  simpl in *. destruct (n =? 0)%nat eqn:En; simpl; [done|].
  apply Nat.eqb_neq in En. intros Hret.
  exists s0, keys_content, s1, n. split_and!; [done|done|lia|lia|].
  intros Hin. rewrite Hin in *.
  destruct (install_cron h _ _ _ _ _) as [s2 r] eqn:Hinst.
  simpl in Hret. subst r.
  apply install_cron_ok_inv in Hinst as (_ & _ & _ & ->). simpl.
  unfold table_of. simpl. by rewrite Hc, Hct.
Qed.

End OrchestratorMore.

Lemma no_success_no_install_witness :
  snd (main ok_host ghost_args demo_state) = SysExit 1
  ∧ crontab (fst (main ok_host ghost_args demo_state)) = crontab demo_state.
Proof.
  destruct (no_success_no_install ok_host ghost_args demo_state
              (fst (fetch_authorized_keys ok_host "http://server:3000"
                      "adminkey" "Developers" demo_state)) demo_payload)
    as (H1 & H2 & _); [vm_compute; reflexivity..|].
  by split.
Defined.


Lemma normal_return_means_progress_witness :
  ∃ s0 keys_content s1 n,
    fetch_authorized_keys ok_host (arg_server root_install_args)
      (arg_key root_install_args) (arg_group root_install_args) demo_state
    = (s0, Some keys_content)
    ∧ update_users ok_host (users_of root_install_args) keys_content 0 s0
      = (s1, n)
    ∧ (0 < n ≤ length (users_of root_install_args))%nat
    ∧ (arg_install root_install_args = true →
       crontab (fst (main ok_host root_install_args demo_state))
       = Some (new_crontab_of
                 (cron_entry ok_host (arg_server root_install_args)
                    (arg_key root_install_args) (arg_group root_install_args)
                    (users_of root_install_args))
                 (Py.translate_newlines (table_of demo_state)))).
Proof.
  apply (normal_return_means_progress ok_host root_install_args demo_state);
    vm_compute; reflexivity.
Defined.

(** ** The scheduler registrar beyond the claims *)

Section RegistrarMore.

Variable h : host.

Import Py PyFacts CronFacts PyMore.

Lemma split_written t :
  split nl (filtered_crontab t +:+ String nl "")
  = split nl (filtered_crontab t) ++ [""].
Proof. by rewrite split_app_sep. Qed.

(** Filtering what [uninstall_cron] wrote gives the same text
    without its final newline. *)
Lemma filtered_of_written t :
  filtered_crontab (filtered_crontab t +:+ String nl "") = filtered_crontab t.
Proof.
  unfold filtered_crontab at 1.
  rewrite split_written, List.filter_app, (filter_all _ _ (filtered_lines_kept t)).
  change (List.filter keep_line [""]) with [""].
  rewrite join_snoc by apply split_not_nil.
  rewrite join_split, app_nil_r. unfold filtered_crontab. apply strip_stable.
Qed.

Lemma tool_lines_written t :
  tool_lines (filtered_crontab t +:+ String nl "") = []
  ∧ tool_entries (filtered_crontab t +:+ String nl "") = [].
Proof.
  unfold tool_lines, tool_entries.
  rewrite split_written, !List.filter_app.
  pose proof (filtered_lines_kept t) as HF.
  rewrite (filter_none (λ line, negb (keep_line line))
             (split nl (filtered_crontab t)))
    by (eapply Forall_impl; [exact HF|]; intros l Hl; simpl in Hl;
        by rewrite Hl).
  rewrite (filter_none (contains SCRIPT_NAME) (split nl (filtered_crontab t))).
  - done.
  - eapply Forall_impl; [exact HF|]. intros l Hl. simpl in Hl.
    unfold keep_line in Hl.
    apply andb_true_iff in Hl as [_ Hl]. by apply negb_true_iff in Hl.
Qed.

(** The table [uninstall_cron] leaves. *)
Lemma uninstall_table s :
  crontab (fst (uninstall_cron h s))
  = if negb (euid h =? 0) || negb (crontab_present h) then crontab s
    else match crontab s with
         | None => None
         | Some t =>
             let text := translate_newlines t in
             if truthy (filtered_crontab text) then
               if crontab_accepts h (filtered_crontab text +:+ String nl "")
               then Some (filtered_crontab text +:+ String nl "")
               else Some t
             else None
         end.
Proof.
  unfold uninstall_cron, crontab_l, crontab_write, crontab_r.
  repeat case_match; simplify_eq; simpl in *; congruence.
Qed.

(** What [uninstall_cron] writes is read back as it was written. *)
Lemma written_read_back t :
  translate_newlines (filtered_crontab (translate_newlines t) +:+ String nl "")
  = filtered_crontab (translate_newlines t) +:+ String nl "".
Proof.
  apply translate_newlines_cr_free. rewrite has_char_app.
  by rewrite filtered_no_cr by apply translate_newlines_no_cr.
Qed.

(** X15. Neither [install_cron] nor [uninstall_cron] ever changes a
    file node, and when either of them exits, the status is 1 and the
    cron table is as it was. *)
Theorem registrar_keeps_files server_url admin_key group_name users s :
  let ri := install_cron h server_url admin_key group_name users s in
  let ru := uninstall_cron h s in
  fs (fst ri) = fs s ∧ fs (fst ru) = fs s
  ∧ (∀ c, snd ri = SysExit c → c = 1 ∧ crontab (fst ri) = crontab s)
  ∧ (∀ c, snd ru = SysExit c → c = 1 ∧ crontab (fst ru) = crontab s).
Proof.
  unfold install_cron, uninstall_cron, crontab_l, crontab_write, crontab_r.
  repeat case_match; simplify_eq; simpl;
    (split_and!; [done|done|intros c Hc; by simplify_eq..]).
Qed.

(** X16. After an uninstall run by root on a table that can be
    decoded, when the crontab tool accepts the text handed to it (the
    table as read in text mode, filtered), the run has returned
    normally and the cron table has no carriage return and no line of
    this tool left: neither a marker comment nor an entry naming the
    program. *)
Theorem uninstall_removes_tool_lines s :
  euid h = 0 → crontab_present h = true →
  (crontab s = None → crontab_decode_error s = None) →
  (∀ t, crontab s = Some t →
        crontab_accepts h
          (filtered_crontab (translate_newlines t) +:+ String nl "") = true) →
  let s' := fst (uninstall_cron h s) in
  snd (uninstall_cron h s) = Returned tt
  ∧ has_char cr (table_of s') = false
  ∧ tool_lines (table_of s') = [] ∧ tool_entries (table_of s') = [].
Proof.
  intros He Hp Hdec Hacc s'. split.
  - unfold uninstall_cron, crontab_l, crontab_write.
    apply Z.eqb_eq in He. rewrite He, Hp. simpl.
    destruct (crontab s) as [t|]; [|by rewrite Hdec].
    rewrite (Hacc t eq_refl). by destruct (truthy _).
  - unfold table_of, s'.
    rewrite uninstall_table. apply Z.eqb_eq in He. rewrite He, Hp. simpl.
    destruct (crontab s) as [t|]; [|done].
    rewrite (Hacc t eq_refl).
    destruct (truthy (filtered_crontab (translate_newlines t))); [|done].
    split; [|apply tool_lines_written].
    rewrite has_char_app.
    by rewrite filtered_no_cr by apply translate_newlines_no_cr.
Qed.

(** X17. Uninstalling twice leaves the same cron table as
    uninstalling once, on every host and from every table. *)
Theorem uninstall_idempotent s :
  crontab (fst (uninstall_cron h (fst (uninstall_cron h s))))
  = crontab (fst (uninstall_cron h s)).
Proof.
  rewrite (uninstall_table (fst (uninstall_cron h s))).
  rewrite !uninstall_table.
  destruct (negb (euid h =? 0) || negb (crontab_present h)); [done|].
  destruct (crontab s) as [t|]; [|done]. cbv zeta.
  destruct (truthy (filtered_crontab (translate_newlines t))) eqn:Ht; [|done].
  destruct (crontab_accepts h
              (filtered_crontab (translate_newlines t) +:+ String nl ""))
    eqn:Ha.
  - by rewrite written_read_back, filtered_of_written, Ht, Ha.
  - by rewrite Ht, Ha.
Qed.

(** X18. [install_cron] checks the exit status of the crontab tool,
    [uninstall_cron] does not: when the tool rejects the table, the
    install exits with status 1, while the uninstall returns normally
    and logs success although the lines of this tool are still in the
    unchanged table. *)
Theorem rejected_table_outcomes server_url admin_key group_name users s t :
  euid h = 0 → crontab_present h = true →
  (∀ input, crontab_accepts h input = false) →
  crontab s = Some t → filtered_crontab t ≠ "" →
  install_cron h server_url admin_key group_name users s
  = (emit ERROR "Failed to install cron job" s, SysExit 1)
  ∧ uninstall_cron h s
    = (emit INFO "Cron job uninstalled successfully" s, Returned tt)
  ∧ tool_lines (table_of (fst (uninstall_cron h s))) = tool_lines t.
Proof.
  intros He Hp Hrej Ht Hne. apply Z.eqb_eq in He.
  assert (truthy (filtered_crontab (translate_newlines t)) = true) as Hne'.
  { apply filtered_translated. by destruct (filtered_crontab t). }
  assert (uninstall_cron h s
          = (emit INFO "Cron job uninstalled successfully" s, Returned tt))
    as Hun.
  { unfold uninstall_cron, crontab_l, crontab_write.
    rewrite He, Hp, Ht. simpl. by rewrite Hne', Hrej. }
  split_and!.
  - unfold install_cron, crontab_l, crontab_write.
    by rewrite He, Hp, Ht, Hrej.
  - done.
  - rewrite Hun. unfold table_of. simpl. by rewrite Ht.
Qed.

(** X19. On a table that has no carriage return and no line of this
    tool, starts and ends without stray white space and ends in one
    newline, a successful install only appends: the table it writes is
    the old table followed by the marker comment line and the entry
    line. *)
Theorem install_appends_to_clean_table
    server_url admin_key group_name users s s1 t :
  crontab s = Some t → has_char cr t = false → tool_lines t = [] →
  strip t ≠ "" → t = strip t +:+ String nl "" →
  install_cron h server_url admin_key group_name users s = (s1, Returned tt) →
  crontab s1
  = Some (t +:+ CRON_COMMENT +:+ String nl ""
            +:+ cron_entry h server_url admin_key group_name users
            +:+ String nl "").
Proof.
  intros Ht Hcr Hclean Hne Hshape (_ & _ & _ & ->)%install_cron_ok_inv.
  simpl. unfold table_of. rewrite Ht, (translate_newlines_cr_free t Hcr).
  unfold new_crontab_of. rewrite (filtered_clean t Hclean).
  destruct (strip t) as [|c r] eqn:E; [done|]. cbn [truthy].
  by rewrite <-Hshape, !app_assoc.
Qed.

(** X20. Install followed by uninstall is a round trip: when the
    script runs under its own name, the entry has neither line feed
    nor carriage return and the crontab tool accepts the tables, a host
    without cron table has none afterwards, and a table without
    carriage return and without lines of this tool that ends in exactly
    one newline, with no stray white space around it, is restored
    character for character. *)
Theorem install_then_uninstall server_url admin_key group_name users s s1 :
  contains SCRIPT_NAME (script_path h) = true →
  has_char nl (cron_entry h server_url admin_key group_name users) = false →
  has_char cr (cron_entry h server_url admin_key group_name users) = false →
  install_cron h server_url admin_key group_name users s = (s1, Returned tt) →
  snd (uninstall_cron h s1) = Returned tt
  ∧ (crontab s = None → crontab (fst (uninstall_cron h s1)) = None)
  ∧ (∀ t, crontab s = Some t → has_char cr t = false → tool_lines t = [] →
          strip t ≠ "" → t = strip t +:+ String nl "" →
          crontab_accepts h t = true →
          crontab (fst (uninstall_cron h s1)) = Some t).
Proof.
  intros Hname Hnl Hcr Hinst.
  pose proof (cron_entry_names_script h server_url admin_key group_name users
                Hname) as Hc.
  assert (keep_line (cron_entry h server_url admin_key group_name users)
          = false) as Hk by (apply keep_line_false_iff; by right).
  apply install_cron_ok_inv in Hinst as (He & Hp & _ & ->).
  apply Z.eqb_eq in He. split_and!.
  - unfold uninstall_cron, crontab_l, crontab_write. rewrite He, Hp. simpl.
    by repeat case_match.
  - intros Hnone. rewrite uninstall_table, He, Hp. simpl.
    rewrite new_crontab_read_back, filtered_new_crontab by done.
    unfold table_of. by rewrite Hnone.
  - intros t Ht Htcr Hclean Hne Hshape Hacc.
    rewrite uninstall_table, He, Hp. simpl.
    rewrite new_crontab_read_back, filtered_new_crontab by done.
    unfold table_of.
    rewrite Ht, (translate_newlines_cr_free t Htcr), (filtered_clean t Hclean).
    destruct (strip t) as [|c r] eqn:E; [done|]. cbn [truthy].
    by rewrite <-Hshape, Hacc.
Qed.

(** X23. When the script runs under its own file name and the
    schedule entry it builds has neither line feed nor carriage return,
    a successful [install] leaves a table whose lines of this tool are
    exactly one marker comment and one entry, whatever the table held
    before; a second [install] succeeds too and leaves the very same
    table. *)
Theorem install_single_entry server_url admin_key group_name users s s1 :
  contains SCRIPT_NAME (script_path h) = true →
  has_char nl (cron_entry h server_url admin_key group_name users) = false →
  has_char cr (cron_entry h server_url admin_key group_name users) = false →
  install_cron h server_url admin_key group_name users s = (s1, Returned tt) →
  let entry := cron_entry h server_url admin_key group_name users in
  ∃ table,
    crontab s1 = Some table
    ∧ tool_lines table = [CRON_COMMENT; entry]
    ∧ tool_entries table = [entry]
    ∧ ∃ s2, install_cron h server_url admin_key group_name users s1
            = (s2, Returned tt)
            ∧ crontab s2 = Some table.
Proof.
  intros Hname Hnl Hcr Hok entry.
  apply install_cron_ok_inv in Hok as (He & Hp & Ha & ->). fold entry in Ha.
  pose proof (cron_entry_names_script h server_url admin_key group_name users
                Hname) as Hc. fold entry in Hc, Hnl, Hcr.
  assert (keep_line entry = false) as Hk
    by (apply keep_line_false_iff; by right).
  exists (new_crontab_of entry (translate_newlines (table_of s))). split_and!.
  - done.
  - by apply tool_lines_new_crontab.
  - by apply tool_entries_new_crontab.
  - unfold install_cron, crontab_write, crontab_l. fold entry.
    rewrite He, Hp. simpl.
    rewrite new_crontab_read_back, new_crontab_idemp, Ha by done. eauto.
Qed.

End RegistrarMore.

Lemma uninstall_removes_tool_lines_witness :
  tool_lines (table_of mixed_table_state) ≠ []
  ∧ tool_lines (table_of (fst (uninstall_cron ok_host mixed_table_state))) = []
  ∧ tool_entries (table_of (fst (uninstall_cron ok_host mixed_table_state)))
    = [].
Proof.
  split; [vm_compute; discriminate|].
  apply (uninstall_removes_tool_lines ok_host mixed_table_state);
    try reflexivity; discriminate.
Defined.

Lemma rejected_table_outcomes_witness :
  install_cron rejecting_host "http://server:3000" "adminkey" "Developers"
    ["root"] mixed_table_state
  = (emit ERROR "Failed to install cron job" mixed_table_state, SysExit 1)
  ∧ uninstall_cron rejecting_host mixed_table_state
    = (emit INFO "Cron job uninstalled successfully" mixed_table_state,
       Returned tt)
  ∧ tool_lines (table_of (fst (uninstall_cron rejecting_host
                                 mixed_table_state)))
    = tool_lines (table_of mixed_table_state).
Proof.
  apply (rejected_table_outcomes rejecting_host "http://server:3000"
           "adminkey" "Developers" ["root"] mixed_table_state
           (table_of mixed_table_state));
    try reflexivity.
  vm_compute. discriminate.
Defined.

Lemma install_appends_to_clean_table_witness :
  crontab (fst (install_cron ok_host "http://server:3000" "adminkey"
                  "Developers" ["root"] plain_table_state))
  = Some (table_of plain_table_state +:+ CRON_COMMENT +:+ String Py.nl ""
            +:+ cron_entry ok_host "http://server:3000" "adminkey"
                  "Developers" ["root"]
            +:+ String Py.nl "").
Proof.
  apply (install_appends_to_clean_table ok_host "http://server:3000"
           "adminkey" "Developers" ["root"] plain_table_state);
    vm_compute; (reflexivity || discriminate).
Defined.

Lemma install_single_entry_witness :
  ∃ table,
    crontab (fst (install_cron ok_host "http://server:3000" "adminkey"
                    "Developers" ["root"; "deploy"] demo_state)) = Some table
    ∧ tool_lines table
      = [CRON_COMMENT;
         cron_entry ok_host "http://server:3000" "adminkey" "Developers"
           ["root"; "deploy"]]
    ∧ tool_entries table
      = [cron_entry ok_host "http://server:3000" "adminkey" "Developers"
           ["root"; "deploy"]]
    ∧ ∃ s2,
        install_cron ok_host "http://server:3000" "adminkey" "Developers"
          ["root"; "deploy"]
          (fst (install_cron ok_host "http://server:3000" "adminkey"
                  "Developers" ["root"; "deploy"] demo_state))
        = (s2, Returned tt)
        ∧ crontab s2 = Some table.
Proof.
  apply (install_single_entry ok_host "http://server:3000" "adminkey"
           "Developers" ["root"; "deploy"] demo_state);
    vm_compute; reflexivity.
Defined.

Lemma install_then_uninstall_witness :
  let s1 := fst (install_cron ok_host "http://server:3000" "adminkey"
                   "Developers" ["root"] plain_table_state) in
  snd (uninstall_cron ok_host s1) = Returned tt
  ∧ crontab (fst (uninstall_cron ok_host s1)) = crontab plain_table_state.
Proof.
  intros s1.
  destruct (install_then_uninstall ok_host "http://server:3000" "adminkey"
              "Developers" ["root"] plain_table_state s1)
    as (Hret & _ & Hback); [vm_compute; reflexivity..|].
  split; [done|].
  apply Hback; vm_compute; (reflexivity || discriminate).
Defined.

(** ** Success of a reconciliation and the uninstall mode *)



Lemma uninstall_cron_same_scheduler h h' s :
  same_scheduler h h' → uninstall_cron h s = uninstall_cron h' s.
Proof.
  intros (He & Hp & Ha). unfold uninstall_cron, crontab_write.
  rewrite He, Hp.
  destruct (negb (euid h' =? 0)); [done|].
  destruct (negb (crontab_present h')); [done|].
  destruct (crontab_l s) as [t| |msg]; [|done..]. by rewrite Ha.
Qed.

(** X22. With [--uninstall] the run is the uninstall alone: it
    changes no file node, and its result is the same on any two hosts
    that agree on the effective uid and the crontab tooling, whatever
    their HTTP peer, user database and access rights. *)
Theorem uninstall_mode_is_local h h' a s :
  arg_uninstall a = true → same_scheduler h h' →
  main h a s = main h' a s ∧ fs (fst (main h a s)) = fs s.
Proof.
  intros Hun Hsame. unfold main. rewrite Hun. split.
  - by apply uninstall_cron_same_scheduler.
  - unfold uninstall_cron, crontab_l, crontab_write, crontab_r.
    destruct (negb (euid h =? 0)); [done|].
    destruct (negb (crontab_present h)); [done|].
    destruct (crontab s) as [t|]; [|by destruct (crontab_decode_error s)].
    destruct (Py.truthy (filtered_crontab _)); [|done].
    by destruct (crontab_accepts h _).
Qed.

Lemma uninstall_mode_is_local_witness :
  main ok_host uninstall_args mixed_table_state
  = main not_found_host uninstall_args mixed_table_state
  ∧ fs (fst (main ok_host uninstall_args mixed_table_state))
    = fs mixed_table_state.
Proof.
  apply (uninstall_mode_is_local ok_host not_found_host uninstall_args
           mixed_table_state); [reflexivity|].
  repeat split.
Defined.
